(** * Pipeline orchestrator of [modules/core.py]

    A shallow embedding of the orchestrator: the resolution of execution
    providers, the command line, the resource limits, the processor chain
    over an image or a video, the reconstruction of the video and the
    teardown of the workspace.

    Data.  Python strings are [string] (characters are bytes; case folding
    is the ASCII one), Python integers are [Z].  The attributes of
    [modules.globals] and of the namespace of the argument parser hold
    dynamically typed values, [value], tested with the truth value Python
    gives them.  Frame rates are floats the orchestrator only passes on:
    they are an abstract type [Fps].

    Effects.  The functions run in a monad [M] over a state made of
    [modules.globals], of an abstract world [W] (file system, libraries,
    user interface) and of the trace of the events so far.  A computation
    returns, raises an exception derived from [Exception], or raises
    [SystemExit].  The collaborators of the orchestrator (utilities, frame
    processors, the predicter, onnxruntime, torch, tensorflow, ctypes, the
    resource module, the user interface) are not in [modules/core.py]: they
    are the fields of a record [Host], each a function of the world that
    may end in any of the three ways.  Printing and the status sink do not
    fail.  Every call the orchestrator makes is recorded in the trace.

    The statements at module level of [modules/core.py] (environment
    variables, warning filters) are outside the embedding. *)

From Stdlib Require Import String Ascii List ZArith Bool Lia DecimalString.
Import ListNotations.
Local Open Scope string_scope.
Local Open Scope Z_scope.

(** ** Strings *)

Module Str.

Definition lower_ascii (c : ascii) : ascii :=
  let n := nat_of_ascii c in
  if (andb (Nat.leb 65 n) (Nat.leb n 90)) then ascii_of_nat (n + 32) else c.

(** [str.lower()] on ASCII text. *)
Fixpoint lower (s : string) : string :=
  match s with
  | EmptyString => EmptyString
  | String c s' => String (lower_ascii c) (lower s')
  end.

(** [s.replace(old, '')] for a non-empty [old]: the occurrences of [old]
    are removed, scanning from the left, without overlap.  [skip] counts
    the characters of the current occurrence still to be dropped. *)
Fixpoint remove_from (old : string) (skip : nat) (s : string) : string :=
  match s with
  | EmptyString => EmptyString
  | String c s' =>
      match skip with
      | S k => remove_from old k s'
      | O =>
          if String.prefix old s
          then remove_from old (Nat.pred (String.length old)) s'
          else String c (remove_from old 0 s')
      end
  end.

Definition remove (old s : string) : string := remove_from old 0 s.

(** [x in l] *)
Definition mem (x : string) (l : list string) : bool :=
  existsb (String.eqb x) l.

(** [l.index(x)]: the position of the first element equal to [x];
    [None] stands for the [ValueError] of an absent element. *)
Fixpoint index (x : string) (l : list string) : option nat :=
  match l with
  | [] => None
  | y :: l' =>
      if String.eqb y x then Some O
      else match index x l' with
           | Some i => Some (S i)
           | None => None
           end
  end.

End Str.

(** ** Execution providers *)

(** The element of the comprehension of [encode_execution_providers]:
    [provider.replace('ExecutionProvider', '').lower()]. *)
Definition encode1 (provider : string) : string :=
  Str.lower (Str.remove "ExecutionProvider" provider).

Definition encode_execution_providers (execution_providers : list string)
  : list string :=
  map encode1 execution_providers.

(** One turn of the comprehension of [decode_execution_providers]:
    [available_providers[encoded_providers.index(req)]] under the filter
    [if req in encoded_providers].  The outer [None] is an exception raised
    by [index] or by the subscript. *)
Definition select_provider (available_providers encoded_providers : list string)
           (req : string) : option (list string) :=
  if Str.mem req encoded_providers then
    match Str.index req encoded_providers with
    | Some i =>
        match nth_error available_providers i with
        | Some provider => Some [provider]
        | None => None
        end
    | None => None
    end
  else Some [].

Fixpoint select_providers (available_providers encoded_providers : list string)
         (execution_providers : list string) : option (list string) :=
  match execution_providers with
  | [] => Some []
  | req :: rest =>
      match select_provider available_providers encoded_providers req with
      | Some here =>
          match select_providers available_providers encoded_providers rest with
          | Some there => Some (here ++ there)%list
          | None => None
          end
      | None => None
      end
  end.

(** [decode_execution_providers], with the list of
    [onnxruntime.get_available_providers()] as first argument. *)
Definition decode_execution_providers (available_providers : list string)
           (execution_providers : list string) : option (list string) :=
  let encoded_providers := encode_execution_providers available_providers in
  match select_providers available_providers encoded_providers
                         execution_providers with
  | Some selected_providers =>
      Some (match selected_providers with
            | [] => ["CPUExecutionProvider"]
            | _ :: _ => selected_providers
            end)
  | None => None
  end.

Definition suggest_execution_providers (available_providers : list string)
  : list string :=
  encode_execution_providers available_providers.


(** ** Python values *)

(** The values the orchestrator stores in [modules.globals] and in the
    namespace of the argument parser. *)
Inductive value : Type :=
| VNone
| VBool (b : bool)
| VStr (s : string)
| VInt (z : Z)
| VStrs (l : list string).

(** Truth value of an object, as [if x:] and [not x] test it. *)
Definition truth (v : value) : bool :=
  match v with
  | VNone => false
  | VBool b => b
  | VStr s => negb (String.eqb s "")
  | VInt z => negb (Z.eqb z 0)
  | VStrs l => match l with [] => false | _ :: _ => true end
  end.

(** [a or b] *)
Definition py_or (a b : value) : value := if truth a then a else b.

(** [x in s] for two strings. *)
Fixpoint substring (x s : string) : bool :=
  if String.prefix x s then true
  else match s with
       | EmptyString => false
       | String _ s' => substring x s'
       end.

(** [x in v] for a string [x]; [None] is the [TypeError] of a value that
    is not a container. *)
Definition py_in (x : string) (v : value) : option bool :=
  match v with
  | VStrs l => Some (Str.mem x l)
  | VStr s => Some (substring x s)
  | _ => None
  end.

Definition value_eqb_str (v : value) (s : string) : bool :=
  match v with
  | VStr t => String.eqb t s
  | _ => false
  end.

(** A module namespace or an [argparse.Namespace]: attribute names with
    their values, the latest binding first. *)
Definition attrs : Type := list (string * value).

Fixpoint getattr (o : attrs) (name : string) : value :=
  match o with
  | [] => VNone
  | (k, v) :: o' => if String.eqb k name then v else getattr o' name
  end.

Definition setattr (o : attrs) (name : string) (v : value) : attrs :=
  (name, v) :: o.

(** ** Exceptions and outcomes *)

(** Exceptions derived from [Exception]: [ValueError] (with its
    subclasses), which [limit_resources] handles, and all the others. *)
Inductive exn : Type :=
| ValueError (msg : string)
| OtherException (cls msg : string).

(** [str(e)] *)
Definition str_exn (e : exn) : string :=
  match e with
  | ValueError msg => msg
  | OtherException _ msg => msg
  end.

(** How a call ends: it returns, it raises an [Exception], or it raises
    [SystemExit] ([quit()], [sys.exit()]), which [except Exception] does
    not catch. *)
Inductive outcome (A : Type) : Type :=
| Ret (a : A)
| Raise (e : exn)
| SystemExit (status : Z).

Arguments Ret {A} a.
Arguments Raise {A} e.
Arguments SystemExit {A} status.

(** ** The argument parser

    [argparse] is a library.  How it matches the words of a command line
    to the options of a parser (option strings in full or abbreviated,
    values in a word of their own, after [=] or attached to a short
    option, [--], numbers that look like options) is not in
    [modules/core.py], and neither is [int]: both are taken from the host
    (the fields [match_command_line] and [py_int] of [Host]).  The
    matching gives the arguments the command line uses, in the order of
    the command line, each by its position in the parser and with the
    strings it receives, or it rejects the command line.

    What is described here is what [parse_args] declares with
    [add_argument]: the action of each argument, its type, its choices,
    its default, and what each action stores in the namespace. *)

Module Argparse.

Inductive argtype : Type := TStr | TInt.

Inductive choices : Type :=
| AnyValue
| OneOf (l : list string)
| Range (n : Z).

Inductive action : Type :=
| Store (ty : argtype) (ch : choices)
| StoreMany (ch : choices)
| StoreTrue
| Version
| Help.

Record argument : Type := Argument {
  option_strings : list string;
  dest : string;
  act : action;
  default : value
}.

(** What the library makes of a command line. *)
Inductive matching : Type :=
| Matched (uses : list (nat * list string))
| NoMatch.

Inductive result : Type :=
| Parsed (ns : attrs)
| UsageError
| ShowVersion
| ShowHelp.

Definition check_choice (ch : choices) (v : value) : bool :=
  match ch, v with
  | AnyValue, _ => true
  | OneOf l, VStr s => Str.mem s l
  | Range n, VInt z => andb (0 <=? z) (z <? n)
  | _, _ => false
  end.

(** The value of one string: [type] applied, then [choices] checked;
    [None] is a usage error.  [int_of] is [int]. *)
Definition convert (int_of : string -> option Z) (ty : argtype) (ch : choices)
           (tok : string) : option value :=
  let ov := match ty with
            | TStr => Some (VStr tok)
            | TInt => option_map VInt (int_of tok)
            end in
  match ov with
  | Some v => if check_choice ch v then Some v else None
  | None => None
  end.

(** The namespace before any argument is used: every destination holds
    its default. *)
Fixpoint defaults (p : list argument) : attrs :=
  match p with
  | [] => []
  | a :: p' =>
      match act a with
      | Version | Help => defaults p'
      | _ => setattr (defaults p') (dest a) (default a)
      end
  end.

(** One argument used: its action stores into the namespace, or ends the
    parsing. *)
Inductive step : Type :=
| Next (ns : attrs)
| Stop (r : result).

Definition invoke (int_of : string -> option Z) (a : argument)
           (strings : list string) (ns : attrs) : step :=
  match act a with
  | StoreTrue =>
      match strings with
      | [] => Next (setattr ns (dest a) (VBool true))
      | _ :: _ => Stop UsageError
      end
  | Store ty ch =>
      match strings with
      | [tok] =>
          match convert int_of ty ch tok with
          | Some v => Next (setattr ns (dest a) v)
          | None => Stop UsageError
          end
      | _ => Stop UsageError
      end
  | StoreMany ch =>
      match strings with
      | [] => Stop UsageError
      | _ :: _ =>
          if forallb (fun tok => check_choice ch (VStr tok)) strings
          then Next (setattr ns (dest a) (VStrs strings))
          else Stop UsageError
      end
  | Version => Stop ShowVersion
  | Help => Stop ShowHelp
  end.

(** The arguments used, one after the other. *)
Fixpoint apply_uses (int_of : string -> option Z) (p : list argument)
         (uses : list (nat * list string)) (ns : attrs) : result :=
  match uses with
  | [] => Parsed ns
  | (i, strings) :: rest =>
      match nth_error p i with
      | None => UsageError
      | Some a =>
          match invoke int_of a strings ns with
          | Next ns' => apply_uses int_of p rest ns'
          | Stop r => r
          end
      end
  end.

(** [parser.parse_args(argv)] *)
Definition parse (matcher : list argument -> list string -> matching)
           (int_of : string -> option Z) (p : list argument)
           (argv : list string) : result :=
  match matcher p argv with
  | Matched uses => apply_uses int_of p uses (defaults p)
  | NoMatch => UsageError
  end.

End Argparse.

Definition suggest_max_memory (platform_system : string) : Z :=
  if String.eqb (Str.lower platform_system) "darwin" then 4 else 16.

(** [suggest_execution_threads]; [None] is the [TypeError] of [in]. *)
Definition suggest_execution_threads (execution_providers : value) : option Z :=
  match py_in "dml" execution_providers with
  | None => None
  | Some true => Some 1
  | Some false =>
      match py_in "rocm" execution_providers with
      | None => None
      | Some true => Some 1
      | Some false => Some 8
      end
  end.

(** The parser [parse_args] builds, one entry for each [add_argument], in
    the order of the calls, after the [-h] the parser starts with.  The
    three defaults computed by a call are arguments. *)
Definition program (max_memory_default : Z) (providers : list string)
           (threads_default : Z) : list Argparse.argument :=
  let A := Argparse.Argument in
  [ A ["-h"; "--help"] "help" Argparse.Help VNone;
    A ["-s"; "--source"] "source_path" (Argparse.Store Argparse.TStr Argparse.AnyValue) VNone;
    A ["-t"; "--target"] "target_path" (Argparse.Store Argparse.TStr Argparse.AnyValue) VNone;
    A ["-o"; "--output"] "output_path" (Argparse.Store Argparse.TStr Argparse.AnyValue) VNone;
    A ["--frame-processor"] "frame_processor"
      (Argparse.StoreMany (Argparse.OneOf ["face_swapper"; "face_enhancer"]))
      (VStrs ["face_swapper"]);
    A ["--keep-fps"] "keep_fps" Argparse.StoreTrue (VBool false);
    A ["--keep-audio"] "keep_audio" Argparse.StoreTrue (VBool true);
    A ["--keep-frames"] "keep_frames" Argparse.StoreTrue (VBool false);
    A ["--many-faces"] "many_faces" Argparse.StoreTrue (VBool false);
    A ["--video-encoder"] "video_encoder"
      (Argparse.Store Argparse.TStr (Argparse.OneOf ["libx264"; "libx265"; "libvpx-vp9"]))
      (VStr "libx264");
    A ["--video-quality"] "video_quality"
      (Argparse.Store Argparse.TInt (Argparse.Range 52)) (VInt 18);
    A ["--max-memory"] "max_memory"
      (Argparse.Store Argparse.TInt Argparse.AnyValue) (VInt max_memory_default);
    A ["--execution-provider"] "execution_provider"
      (Argparse.StoreMany (Argparse.OneOf providers)) (VStrs ["cpu"]);
    A ["--execution-threads"] "execution_threads"
      (Argparse.Store Argparse.TInt Argparse.AnyValue) (VInt threads_default);
    A ["-v"; "--version"] "version" Argparse.Version VNone;
    A ["-f"; "--face"] "source_path_deprecated"
      (Argparse.Store Argparse.TStr Argparse.AnyValue) VNone;
    A ["--cpu-cores"] "cpu_cores_deprecated"
      (Argparse.Store Argparse.TInt Argparse.AnyValue) VNone;
    A ["--gpu-vendor"] "gpu_vendor_deprecated"
      (Argparse.Store Argparse.TStr Argparse.AnyValue) VNone;
    A ["--gpu-threads"] "gpu_threads_deprecated"
      (Argparse.Store Argparse.TInt Argparse.AnyValue) VNone ].

(** ** The world, the trace and the monad of the orchestrator *)

Section Orchestrator.

(** The state of everything outside the orchestrator (file system,
    libraries, user interface), and the type of frame rates (Python
    floats, which the orchestrator only passes on). *)
Context {W : Type} {Fps : Type}.

(** A call of a collaborator: it may change the world, and returns,
    raises or exits. *)
Definition ext (A : Type) : Type := W -> outcome A * W.

Inductive Event : Type :=
| Print (text : string)
| UiStatus (message : string)
| SignalSigint
| ParserExit (status : Z)
| GetAvailableProviders
| NormalizeOutputPath (source target output : value)
| TfListGpus
| TfSetMemoryGrowth (gpu : string)
| SetProcessWorkingSetSize (handle minimum maximum : Z)
| GetRlimit
| SetRlimit (soft hard : Z)
| CudaEmptyCache
| CudaIsAvailable
| WhichFfmpeg
| GetFrameProcessorsModules (names : value)
| PreCheck (name : string)
| PreStart (name : string)
| ProcessImage (name : string) (source target output : value)
| ProcessVideo (name : string) (source : value) (frames : list string)
| HasImageExtension (path : value)
| IsImage (path : value)
| IsVideo (path : value)
| PredictImage (path : value)
| PredictVideo (path : value)
| Copy2 (source destination : value)
| CreateTemp (target : value)
| ExtractFrames (target : value)
| GetTempFramePaths (target : value)
| DetectFps (target : value)
| CreateVideo (target : value) (fps : Fps)
| RestoreAudio (target output : value)
| MoveTemp (target output : value)
| CleanTemp (target : value)
| UiMainloop
| Quit.

Record State : Type := mkState {
  globals : attrs;
  world : W;
  trace : list Event
}.

Definition M (A : Type) : Type := State -> outcome A * State.

Definition ret {A} (a : A) : M A := fun st => (Ret a, st).

Definition bind {A B} (c : M A) (k : A -> M B) : M B :=
  fun st =>
    match c st with
    | (Ret a, st') => k a st'
    | (Raise e, st') => (Raise e, st')
    | (SystemExit n, st') => (SystemExit n, st')
    end.

Definition raise {A} (e : exn) : M A := fun st => (Raise e, st).

Definition sys_exit {A} (status : Z) : M A := fun st => (SystemExit status, st).

Definition log (ev : Event) : M unit :=
  fun st => (Ret tt, mkState (globals st) (world st) (trace st ++ [ev])).

(** A foreign function called through ctypes: it returns its result, and
    raises nothing. *)
Definition foreign {A} (f : W -> A * W) : ext A :=
  fun w => let (a, w') := f w in (Ret a, w').

(** A call of a collaborator, recorded before it runs. *)
Definition call {A} (ev : Event) (f : ext A) : M A :=
  fun st =>
    let (r, w) := f (world st) in
    (r, mkState (globals st) w (trace st ++ [ev])).

(** [modules.globals.name] *)
Definition read (name : string) : M value :=
  fun st => (Ret (getattr (globals st) name), st).

(** [modules.globals.name = v] *)
Definition assign (name : string) (v : value) : M unit :=
  fun st => (Ret tt, mkState (setattr (globals st) name v) (world st) (trace st)).

(** [try: body / except Exception as e: handler(e)] *)
Definition try_except {A} (body : M A) (handler : exn -> M A) : M A :=
  fun st =>
    match body st with
    | (Raise e, st') => handler e st'
    | other => other
    end.

(** [try: body / except ValueError as e: handler(e)] *)
Definition try_except_ValueError {A} (body : M A) (handler : exn -> M A) : M A :=
  fun st =>
    match body st with
    | (Raise (ValueError msg), st') => handler (ValueError msg) st'
    | other => other
    end.

(** A value of [option] whose [None] is an exception of class [cls]. *)
Definition or_raise {A} (cls : string) (o : option A) : M A :=
  match o with
  | Some a => ret a
  | None => raise (OtherException cls "")
  end.

End Orchestrator.

Arguments Event : clear implicits.
Arguments State : clear implicits.
Arguments M : clear implicits.
Arguments ext : clear implicits.

Declare Scope orch_scope.
Delimit Scope orch_scope with orch.
Notation "x <- c ;; k" := (bind c (fun x => k))
  (at level 61, c at next level, right associativity) : orch_scope.
Notation "c ;; k" := (bind c (fun _ => k))
  (at level 61, right associativity) : orch_scope.
Local Open Scope orch_scope.

(** A frame processor module, as [get_frame_processors_modules] returns
    it. *)
Record FrameProcessor (W : Type) : Type := mkFrameProcessor {
  NAME : string;
  pre_check_of : ext W bool;
  pre_start_of : ext W bool;
  process_image_of : value -> value -> value -> ext W unit;
  process_video_of : value -> list string -> ext W unit
}.

Arguments NAME {W} _.
Arguments pre_check_of {W} _.
Arguments pre_start_of {W} _.
Arguments process_image_of {W} _.
Arguments process_video_of {W} _.

(** The collaborators of [modules/core.py]. *)
Record Host (W Fps : Type) : Type := mkHost {
  (* platform, sys, shutil *)
  platform_system : string;
  python_version : Z * Z;
  which_ffmpeg : ext W bool;
  copy2 : value -> value -> ext W unit;
  (* modules.metadata *)
  metadata_name : string;
  metadata_version : string;
  (* onnxruntime, torch, tensorflow *)
  get_available_providers : ext W (list string);
  cuda_is_available : ext W bool;
  cuda_empty_cache : ext W unit;
  tf_list_gpus : ext W (list string);
  tf_set_memory_growth : string -> ext W unit;
  (* ctypes, resource *)
  set_process_working_set_size : Z -> Z -> Z -> W -> Z * W;
  getrlimit_data : ext W (Z * Z);
  setrlimit_data : Z -> Z -> ext W unit;
  (* modules.utilities *)
  normalize_output_path : value -> value -> value -> ext W value;
  has_image_extension : value -> ext W bool;
  is_image : value -> ext W bool;
  is_video : value -> ext W bool;
  detect_fps : value -> ext W Fps;
  create_video : value -> Fps -> ext W unit;
  extract_frames : value -> ext W unit;
  get_temp_frame_paths : value -> ext W (list string);
  restore_audio : value -> value -> ext W unit;
  create_temp : value -> ext W unit;
  move_temp : value -> value -> ext W unit;
  clean_temp : value -> ext W unit;
  (* modules.predicter, modules.processors.frame.core *)
  predict_image : value -> ext W bool;
  predict_video : value -> ext W bool;
  get_frame_processors_modules : value -> ext W (list (FrameProcessor W));
  (* modules.ui *)
  ui_status_label : W -> bool;
  ui_update_status : string -> W -> W;
  ui_mainloop : M W Fps unit -> (bool -> M W Fps unit) -> M W Fps unit;
  (* argparse and int *)
  match_command_line : list Argparse.argument -> list string -> Argparse.matching;
  py_int : string -> option Z;
  (* floats: the constant 30.0, [str(fps)] and [str(n / 1024 ** 3)] *)
  float_30 : Fps;
  str_fps : Fps -> string;
  str_gb : Z -> string
}.

Arguments platform_system {W Fps} _.
Arguments python_version {W Fps} _.
Arguments which_ffmpeg {W Fps} _.
Arguments copy2 {W Fps} _.
Arguments metadata_name {W Fps} _.
Arguments metadata_version {W Fps} _.
Arguments get_available_providers {W Fps} _.
Arguments cuda_is_available {W Fps} _.
Arguments cuda_empty_cache {W Fps} _.
Arguments tf_list_gpus {W Fps} _.
Arguments tf_set_memory_growth {W Fps} _.
Arguments set_process_working_set_size {W Fps} _.
Arguments getrlimit_data {W Fps} _.
Arguments setrlimit_data {W Fps} _.
Arguments normalize_output_path {W Fps} _.
Arguments has_image_extension {W Fps} _.
Arguments is_image {W Fps} _.
Arguments is_video {W Fps} _.
Arguments detect_fps {W Fps} _.
Arguments create_video {W Fps} _.
Arguments extract_frames {W Fps} _.
Arguments get_temp_frame_paths {W Fps} _.
Arguments restore_audio {W Fps} _.
Arguments create_temp {W Fps} _.
Arguments move_temp {W Fps} _.
Arguments clean_temp {W Fps} _.
Arguments predict_image {W Fps} _.
Arguments predict_video {W Fps} _.
Arguments get_frame_processors_modules {W Fps} _.
Arguments ui_status_label {W Fps} _.
Arguments ui_update_status {W Fps} _.
Arguments ui_mainloop {W Fps} _.
Arguments match_command_line {W Fps} _.
Arguments py_int {W Fps} _.
Arguments float_30 {W Fps} _.
Arguments str_fps {W Fps} _.
Arguments str_gb {W Fps} _.


(** ** The functions of [modules/core.py] *)

Section Core.

Context {W Fps : Type} (host : Host W Fps).

Local Abbreviation M := (M W Fps).

(** [for x in l: body(x)] *)
Fixpoint for_each {A} (l : list A) (body : A -> M unit) : M unit :=
  match l with
  | [] => ret tt
  | x :: l' => body x ;; for_each l' body
  end.

(** [print(text)] *)
Definition print (text : string) : M unit := log (Print text).

(** [ui.update_status(message)] when [ui.status_label] is set. *)
Definition ui_report (message : string) : M unit :=
  fun st =>
    if ui_status_label host (world st)
    then (Ret tt, mkState (globals st)
                          (ui_update_status host message (world st))
                          (trace st ++ [UiStatus message]))
    else (Ret tt, st).

Definition update_status (message : string) (scope : string) : M unit :=
  print ("[" ++ scope ++ "] " ++ message) ;;
  headless <- read "headless" ;;
  if negb (truth headless) then ui_report message else ret tt.

Definition CORE : string := "DLC.CORE".

(** [decode_execution_providers] with its call of onnxruntime. *)
Definition decode_execution_providers_call (execution_providers : list string)
  : M value :=
  available_providers <- call GetAvailableProviders (get_available_providers host) ;;
  selected <- or_raise "IndexError"
                (decode_execution_providers available_providers execution_providers) ;;
  ret (VStrs selected).

Definition yellow (text : string) : string :=
  String (ascii_of_nat 27) "[33m" ++ text ++ String (ascii_of_nat 27) "[0m".

Definition handle_deprecated_args (args : attrs) : M unit :=
  (if truth (getattr args "source_path_deprecated") then
     print (yellow "Argument -f and --face are deprecated. Use -s and --source instead.") ;;
     assign "source_path" (getattr args "source_path_deprecated") ;;
     target <- read "target_path" ;;
     output <- call (NormalizeOutputPath (getattr args "source_path_deprecated") target
                                         (getattr args "output_path"))
                    (normalize_output_path host (getattr args "source_path_deprecated")
                                           target (getattr args "output_path")) ;;
     assign "output_path" output
   else ret tt) ;;
  (if truth (getattr args "cpu_cores_deprecated") then
     print (yellow "Argument --cpu-cores is deprecated. Use --execution-threads instead.") ;;
     assign "execution_threads" (getattr args "cpu_cores_deprecated")
   else ret tt) ;;
  (if value_eqb_str (getattr args "gpu_vendor_deprecated") "apple" then
     print (yellow "Argument --gpu-vendor apple is deprecated. Use --execution-provider coreml instead.") ;;
     providers <- decode_execution_providers_call ["coreml"] ;;
     assign "execution_providers" providers
   else ret tt) ;;
  (if value_eqb_str (getattr args "gpu_vendor_deprecated") "nvidia" then
     print (yellow "Argument --gpu-vendor nvidia is deprecated. Use --execution-provider cuda instead.") ;;
     providers <- decode_execution_providers_call ["cuda"] ;;
     assign "execution_providers" providers
   else ret tt) ;;
  (if value_eqb_str (getattr args "gpu_vendor_deprecated") "amd" then
     print (yellow "Argument --gpu-vendor amd is deprecated. Use --execution-provider rocm instead.") ;;
     providers <- decode_execution_providers_call ["rocm"] ;;
     assign "execution_providers" providers
   else ret tt) ;;
  (if truth (getattr args "gpu_threads_deprecated") then
     print (yellow "Argument --gpu-threads is deprecated. Use --execution-threads instead.") ;;
     assign "execution_threads" (getattr args "gpu_threads_deprecated")
   else ret tt).

(** The strings a [for] or a comprehension reads from a value: the
    elements of a list, the characters of a string; [None] is the
    [TypeError] of a value that is not iterable. *)
Fixpoint characters (s : string) : list string :=
  match s with
  | EmptyString => []
  | String c s' => String c EmptyString :: characters s'
  end.

Definition iter_strs (v : value) : option (list string) :=
  match v with
  | VStrs l => Some l
  | VStr s => Some (characters s)
  | _ => None
  end.

(** The integer of a value used in arithmetic ([bool] is a subclass of
    [int]); [None] for the other values, on which the arithmetic of
    [limit_resources] fails. *)
Definition as_int (v : value) : option Z :=
  match v with
  | VInt z => Some z
  | VBool b => Some (if b then 1 else 0)
  | _ => None
  end.

(** The assignments of [parse_args] once the command line is parsed. *)
Definition store_args (args : attrs) : M unit :=
  assign "source_path" (getattr args "source_path") ;;
  assign "target_path" (getattr args "target_path") ;;
  source <- read "source_path" ;;
  target <- read "target_path" ;;
  output <- call (NormalizeOutputPath source target (getattr args "output_path"))
                 (normalize_output_path host source target (getattr args "output_path")) ;;
  assign "output_path" output ;;
  assign "frame_processors" (getattr args "frame_processor") ;;
  assign "headless" (py_or (py_or (getattr args "source_path") (getattr args "target_path"))
                           (getattr args "output_path")) ;;
  assign "keep_fps" (getattr args "keep_fps") ;;
  assign "keep_audio" (getattr args "keep_audio") ;;
  assign "keep_frames" (getattr args "keep_frames") ;;
  assign "many_faces" (getattr args "many_faces") ;;
  assign "video_encoder" (getattr args "video_encoder") ;;
  assign "video_quality" (getattr args "video_quality") ;;
  assign "max_memory" (getattr args "max_memory") ;;
  requested <- or_raise "TypeError" (iter_strs (getattr args "execution_provider")) ;;
  providers <- decode_execution_providers_call requested ;;
  assign "execution_providers" providers ;;
  assign "execution_threads" (getattr args "execution_threads") ;;
  enhancer <- or_raise "TypeError" (py_in "face_enhancer" (getattr args "frame_processor")) ;;
  assign "fp_ui.face_enhancer" (VBool enhancer) ;;
  assign "nsfw" (VBool false) ;;
  handle_deprecated_args args.

(** [parse_args], with [sys.argv[1:]] as argument. *)
Definition parse_args (argv : list string) : M unit :=
  log SignalSigint ;;
  available_providers <- call GetAvailableProviders (get_available_providers host) ;;
  execution_providers <- read "execution_providers" ;;
  threads <- or_raise "TypeError" (suggest_execution_threads execution_providers) ;;
  match Argparse.parse
          (match_command_line host) (py_int host)
          (program (suggest_max_memory (platform_system host))
                   (suggest_execution_providers available_providers)
                   threads) argv with
  | Argparse.Parsed args => store_args args
  | Argparse.UsageError => log (ParserExit 2) ;; sys_exit 2
  | Argparse.ShowVersion =>
      print (metadata_name host ++ " " ++ metadata_version host) ;; sys_exit 0
  | Argparse.ShowHelp => log (ParserExit 0) ;; sys_exit 0
  end.

(** *** Resource limits *)

(** The first part of [limit_resources] (Prevent TensorFlow memory
    leak). *)
Definition prevent_tensorflow_memory_leak : M unit :=
  gpus <- call TfListGpus (tf_list_gpus host) ;;
  for_each gpus (fun gpu => call (TfSetMemoryGrowth gpu) (tf_set_memory_growth host gpu)).

(** [ctypes.c_size_t(n)] on a 64-bit host. *)
Definition c_size_t (n : Z) : Z := n mod 2 ^ 64.

Definition GB : Z := 1024 ^ 3.

(** The [try] block of the branch of the other platforms. *)
Definition set_data_limit (memory : Z) : M unit :=
  limits <- call GetRlimit (getrlimit_data host) ;;
  let hard := snd limits in
  memory' <- (if memory >? hard then
                print ("Warning: Requested memory limit " ++ str_gb host memory
                       ++ " GB exceeds system's hard limit. Setting to maximum allowed "
                       ++ str_gb host hard ++ " GB.") ;;
                ret hard
              else ret memory) ;;
  call (SetRlimit memory' memory') (setrlimit_data host memory' memory').

(** The second part of [limit_resources] (Limit memory usage). *)
Definition limit_memory_usage : M unit :=
  max_memory <- read "max_memory" ;;
  if truth max_memory then
    gb <- or_raise "TypeError" (as_int max_memory) ;;
    let memory := gb * GB in
    if String.eqb (Str.lower (platform_system host)) "darwin" then
      ret tt
    else if String.eqb (Str.lower (platform_system host)) "windows" then
      call (SetProcessWorkingSetSize (-1) (c_size_t memory) (c_size_t memory))
           (foreign (set_process_working_set_size host (-1) (c_size_t memory)
                                                 (c_size_t memory))) ;;
      ret tt
    else
      try_except_ValueError
        (set_data_limit memory)
        (fun e => print ("Warning: Could not set memory limit: " ++ str_exn e
                         ++ ". Continuing with default limits."))
  else ret tt.

Definition limit_resources : M unit :=
  prevent_tensorflow_memory_leak ;;
  limit_memory_usage.

Definition release_resources : M unit :=
  execution_providers <- read "execution_providers" ;;
  cuda <- or_raise "TypeError" (py_in "cuda" execution_providers) ;;
  if cuda then call CudaEmptyCache (cuda_empty_cache host) else ret tt.

Definition version_lt_3_9 (v : Z * Z) : bool :=
  orb (fst v <? 3) (andb (fst v =? 3) (snd v <? 9)).

Definition pre_check : M bool :=
  if version_lt_3_9 (python_version host) then
    update_status "Python version is not supported - please upgrade to 3.9 or higher." CORE ;;
    ret false
  else
    ffmpeg <- call WhichFfmpeg (which_ffmpeg host) ;;
    if negb ffmpeg then
      update_status "ffmpeg is not installed." CORE ;;
      ret false
    else
      execution_providers <- read "execution_providers" ;;
      cuda <- or_raise "TypeError" (py_in "cuda" execution_providers) ;;
      missing <- (if cuda then
                    available <- call CudaIsAvailable (cuda_is_available host) ;;
                    ret (negb available)
                  else ret false) ;;
      if (missing : bool) then
        update_status "CUDA is not available. Please check your GPU or CUDA installation." CORE ;;
        ret false
      else ret true.

(** *** Teardown *)

Definition destroy (to_quit : bool) : M unit :=
  target_path <- read "target_path" ;;
  (if truth target_path
   then call (CleanTemp target_path) (clean_temp host target_path)
   else ret tt) ;;
  if to_quit then log Quit ;; sys_exit 0 else ret tt.


(** *** Reconstruction of the video *)

(** Modelled from the spec: the default of the parameter [fps] of
    [create_video] in modules/utilities, which is not among the sources;
    the spec gives it as the fixed default rate 30.0. *)
Definition create_video_default_fps : Fps := float_30 host.

Definition handle_video_fps : M unit :=
  keep_fps <- read "keep_fps" ;;
  target_path <- read "target_path" ;;
  if truth keep_fps then
    update_status "Detecting fps..." CORE ;;
    fps <- call (DetectFps target_path) (detect_fps host target_path) ;;
    update_status ("Creating video with " ++ str_fps host fps ++ " fps...") CORE ;;
    call (CreateVideo target_path fps) (create_video host target_path fps)
  else
    update_status "Creating video with 30.0 fps..." CORE ;;
    call (CreateVideo target_path create_video_default_fps)
         (create_video host target_path create_video_default_fps).

Definition handle_video_audio : M unit :=
  keep_audio <- read "keep_audio" ;;
  target_path <- read "target_path" ;;
  output_path <- read "output_path" ;;
  if truth keep_audio then
    keep_fps <- read "keep_fps" ;;
    (if truth keep_fps
     then update_status "Restoring audio..." CORE
     else update_status "Restoring audio might cause issues as fps are not kept..." CORE) ;;
    call (RestoreAudio target_path output_path)
         (restore_audio host target_path output_path)
  else
    call (MoveTemp target_path output_path) (move_temp host target_path output_path).

(** *** The two paths *)

Definition load_frame_processors : M (list (FrameProcessor W)) :=
  names <- read "frame_processors" ;;
  call (GetFrameProcessorsModules names) (get_frame_processors_modules host names).

Definition process_image_to_image : M unit :=
  nsfw <- read "nsfw" ;;
  target_path <- read "target_path" ;;
  flagged <- (if truth nsfw
              then call (PredictImage target_path) (predict_image host target_path)
              else ret false) ;;
  if (flagged : bool) then
    destroy false ;;
    update_status "Processing to image ignored!" CORE
  else
    output_path <- read "output_path" ;;
    source_path <- read "source_path" ;;
    try_except
      (call (Copy2 target_path output_path) (copy2 host target_path output_path))
      (fun e => print ("Error copying file: " ++ str_exn e)) ;;
    processors <- load_frame_processors ;;
    for_each processors (fun frame_processor =>
      update_status "Processing..." (NAME frame_processor) ;;
      call (ProcessImage (NAME frame_processor) source_path output_path output_path)
           (process_image_of frame_processor source_path output_path output_path) ;;
      release_resources) ;;
    valid <- call (IsImage target_path) (is_image host target_path) ;;
    if (valid : bool)
    then update_status "Processing to image succeeded!" CORE
    else update_status "Processing to image failed!" CORE.

Definition process_image_to_video : M unit :=
  nsfw <- read "nsfw" ;;
  target_path <- read "target_path" ;;
  flagged <- (if truth nsfw
              then call (PredictVideo target_path) (predict_video host target_path)
              else ret false) ;;
  if (flagged : bool) then
    destroy false ;;
    update_status "Processing to video ignored!" CORE
  else
    source_path <- read "source_path" ;;
    update_status "Creating temporary resources..." CORE ;;
    call (CreateTemp target_path) (create_temp host target_path) ;;
    update_status "Extracting frames..." CORE ;;
    call (ExtractFrames target_path) (extract_frames host target_path) ;;
    temp_frame_paths <- call (GetTempFramePaths target_path)
                             (get_temp_frame_paths host target_path) ;;
    processors <- load_frame_processors ;;
    for_each processors (fun frame_processor =>
      update_status "Processing..." (NAME frame_processor) ;;
      call (ProcessVideo (NAME frame_processor) source_path temp_frame_paths)
           (process_video_of frame_processor source_path temp_frame_paths) ;;
      release_resources) ;;
    handle_video_fps ;;
    handle_video_audio ;;
    call (CleanTemp target_path) (clean_temp host target_path) ;;
    valid <- call (IsVideo target_path) (is_video host target_path) ;;
    if (valid : bool)
    then update_status "Processing to video succeeded!" CORE
    else update_status "Processing to video failed!" CORE.

(** The loop [for frame_processor in ...: if not
    frame_processor.pre_start(): return]: [false] when the loop
    returned. *)
Fixpoint pre_start_all (processors : list (FrameProcessor W)) : M bool :=
  match processors with
  | [] => ret true
  | frame_processor :: rest =>
      ready <- call (PreStart (NAME frame_processor)) (pre_start_of frame_processor) ;;
      if (ready : bool) then pre_start_all rest else ret false
  end.

Fixpoint pre_check_all (processors : list (FrameProcessor W)) : M bool :=
  match processors with
  | [] => ret true
  | frame_processor :: rest =>
      ready <- call (PreCheck (NAME frame_processor)) (pre_check_of frame_processor) ;;
      if (ready : bool) then pre_check_all rest else ret false
  end.

Definition start : M unit :=
  processors <- load_frame_processors ;;
  ready <- pre_start_all processors ;;
  if negb ready then ret tt
  else
    target_path <- read "target_path" ;;
    image <- call (HasImageExtension target_path) (has_image_extension host target_path) ;;
    if (image : bool) then process_image_to_image else process_image_to_video.

(** The body of the [try] of [run]. *)
Definition run_body (argv : list string) : M unit :=
  parse_args argv ;;
  ok <- pre_check ;;
  if negb ok then ret tt
  else
    processors <- load_frame_processors ;;
    ok <- pre_check_all processors ;;
    if negb ok then ret tt
    else
      limit_resources ;;
      headless <- read "headless" ;;
      if truth headless then start
      else log UiMainloop ;; ui_mainloop host start destroy.

(** The handler of [run]: [except Exception as e]. *)
Definition run_handler (e : exn) : M unit :=
  print ("UI initialization failed: " ++ str_exn e) ;;
  update_status ("UI initialization failed: " ++ str_exn e) CORE ;;
  destroy true.

Definition run (argv : list string) : M unit :=
  try_except (run_body argv) run_handler.

End Core.

(** ** Definitions used in the statements *)

(** The first host provider whose canonical form is [req]. *)
Definition first_with_form (available_providers : list string) (req : string)
  : option string :=
  find (fun provider => String.eqb (encode1 provider) req) available_providers.

(** The provider [decode_execution_providers] selects for each request, in
    the order of the requests: the first host provider with that canonical
    form, when there is one. *)
Definition selected_providers (available_providers requested : list string)
  : list string :=
  flat_map (fun req => match first_with_form available_providers req with
                       | Some provider => [provider]
                       | None => []
                       end) requested.

(** The requests the host can serve, in the order of the requests. *)
Definition served_requests (available_providers requested : list string)
  : list string :=
  filter (fun req => Str.mem req (encode_execution_providers available_providers))
         requested.

(** The events an execution adds to the trace. *)
Definition new_events {W Fps} (before after : State W Fps) : list (Event Fps) :=
  skipn (length (trace before)) (trace after).

Definition is_status {Fps} (ev : Event Fps) : bool :=
  match ev with
  | Print _ | UiStatus _ => true
  | _ => false
  end.

(** The calls of collaborators among the events, the status messages left
    out. *)
Definition collaborator_calls {Fps} (evs : list (Event Fps)) : list (Event Fps) :=
  filter (fun ev => negb (is_status ev)) evs.

(** The lines printed. *)
Definition printed {Fps} (evs : list (Event Fps)) : list string :=
  flat_map (fun ev => match ev with Print text => [text] | _ => [] end) evs.

(** The state [update_status] leaves. *)
Definition status_state {W Fps} (host : Host W Fps) (st : State W Fps)
           (message scope : string) : State W Fps :=
  snd (update_status host message scope st).

(** ** Command lines in the plain form

    The matching and the conversion of the small host below, for
    command lines written in the plain form: every option string in full,
    every value in a word of its own, integers in decimal digits with an
    optional sign.  [argparse] and [int] accept more than this. *)

Module Plain.

Definition is_digit (c : ascii) : bool :=
  let n := nat_of_ascii c in andb (Nat.leb 48 n) (Nat.leb n 57).

Fixpoint all_digits (s : string) : bool :=
  match s with
  | EmptyString => true
  | String c s' => andb (is_digit c) (all_digits s')
  end.

Fixpoint digits_value (acc : Z) (s : string) : Z :=
  match s with
  | EmptyString => acc
  | String c s' => digits_value (10 * acc + Z.of_nat (nat_of_ascii c - 48)) s'
  end.

Definition parse_nat (s : string) : option Z :=
  match s with
  | EmptyString => None
  | _ => if all_digits s then Some (digits_value 0 s) else None
  end.

Definition parse_int (s : string) : option Z :=
  match s with
  | String "-" s' => option_map Z.opp (parse_nat s')
  | String "+" s' => parse_nat s'
  | _ => parse_nat s
  end.

Definition negative_number (s : string) : bool :=
  match s with
  | String "-" (String c s') => all_digits (String c s')
  | _ => false
  end.

(** A word read as an option string rather than as a value. *)
Definition option_like (tok : string) : bool :=
  match tok with
  | String "-" (String _ _) => negb (negative_number tok)
  | _ => false
  end.

(** The position of the argument that has [tok] among its option
    strings. *)
Fixpoint find_index (p : list Argparse.argument) (tok : string) (i : nat)
  : option nat :=
  match p with
  | [] => None
  | a :: p' =>
      if Str.mem tok (Argparse.option_strings a) then Some i
      else find_index p' tok (S i)
  end.

Definition close (cur : option (nat * list string)) : list (nat * list string) :=
  match cur with
  | Some use => [use]
  | None => []
  end.

(** The words are read from the left; [cur] is the option whose values
    are being read. *)
Fixpoint collect (p : list Argparse.argument) (toks : list string)
         (cur : option (nat * list string)) : option (list (nat * list string)) :=
  match toks with
  | [] => Some (close cur)
  | tok :: rest =>
      if option_like tok then
        match find_index p tok 0 with
        | None => None
        | Some i =>
            match collect p rest (Some (i, [])) with
            | Some uses => Some (close cur ++ uses)%list
            | None => None
            end
        end
      else
        match cur with
        | None => None
        | Some (i, acc) => collect p rest (Some (i, acc ++ [tok])%list)
        end
  end.

Definition match_command_line (p : list Argparse.argument) (argv : list string)
  : Argparse.matching :=
  match collect p argv None with
  | Some uses => Argparse.Matched uses
  | None => Argparse.NoMatch
  end.

End Plain.

(** ** A small host

    A host for concrete runs: the world is [unit], frame rates are written
    as their decimal text, every collaborator returns at once.  The only
    image is [target.png], the only video [target.mp4]. *)
Definition returns {A} (a : A) : ext unit A := fun w => (Ret a, w).

Definition toy_processor (name : string) (ready : bool) : FrameProcessor unit :=
  mkFrameProcessor unit name (returns true) (returns ready)
                   (fun _ _ _ => returns tt) (fun _ _ => returns tt).

Definition toy_host (platform : string) (limits : outcome (Z * Z))
           (applied : outcome unit) (copied : outcome unit)
           (created : outcome unit) (processors : list (FrameProcessor unit))
  : Host unit string :=
  {| platform_system := platform;
     python_version := (3, 10);
     which_ffmpeg := returns true;
     copy2 := fun _ _ w => (copied, w);
     metadata_name := "Deep-Live-Cam";
     metadata_version := "1.0";
     get_available_providers := returns ["CUDAExecutionProvider"; "CPUExecutionProvider"];
     cuda_is_available := returns true;
     cuda_empty_cache := returns tt;
     tf_list_gpus := returns [];
     tf_set_memory_growth := fun _ => returns tt;
     set_process_working_set_size := fun _ _ _ w => (1, w);
     getrlimit_data := fun w => (limits, w);
     setrlimit_data := fun _ _ w => (applied, w);
     normalize_output_path := fun _ _ output => returns output;
     has_image_extension := fun p => returns (value_eqb_str p "target.png");
     is_image := fun p => returns (value_eqb_str p "target.png");
     is_video := fun p => returns (value_eqb_str p "target.mp4");
     detect_fps := fun _ => returns "25.0";
     create_video := fun _ _ => returns tt;
     extract_frames := fun _ => returns tt;
     get_temp_frame_paths := fun _ => returns ["0001.png"; "0002.png"; "0003.png"];
     restore_audio := fun _ _ => returns tt;
     create_temp := fun _ w => (created, w);
     move_temp := fun _ _ => returns tt;
     clean_temp := fun _ => returns tt;
     predict_image := fun _ => returns true;
     predict_video := fun _ => returns true;
     get_frame_processors_modules := fun _ => returns processors;
     ui_status_label := fun _ => false;
     ui_update_status := fun _ w => w;
     ui_mainloop := fun _ _ => ret tt;
     match_command_line := Plain.match_command_line;
     py_int := Plain.parse_int;
     float_30 := "30.0";
     str_fps := fun fps => fps;
     str_gb := fun n => NilEmpty.string_of_int (Z.to_int (n / GB)) ++ ".0" |}.

Definition linux_host : Host unit string :=
  toy_host "Linux" (Ret (-1, 8 * GB)) (Ret tt) (Ret tt) (Ret tt)
           [toy_processor "DLC.FACE-SWAPPER" true].

(** The configuration of a job in headless mode. *)
Definition job (target output : string) (keep_fps keep_audio nsfw : bool)
  : State unit string :=
  mkState [("source_path", VStr "face.png"); ("target_path", VStr target);
           ("output_path", VStr output); ("headless", VStr "face.png");
           ("frame_processors", VStrs ["face_swapper"]);
           ("keep_fps", VBool keep_fps); ("keep_audio", VBool keep_audio);
           ("max_memory", VInt 16);
           ("execution_providers", VStrs ["CPUExecutionProvider"]);
           ("nsfw", VBool nsfw)]
          tt [].

(** A job on a video: [-s face.png -t target.mp4 -o out.mp4]. *)
Definition video_job (keep_fps keep_audio : bool) : State unit string :=
  job "target.mp4" "out.mp4" keep_fps keep_audio false.

(** A job on an image: [-s face.png -t target.png -o out.png]. *)
Definition image_job (nsfw : bool) : State unit string :=
  job "target.png" "out.png" false true nsfw.

(** The module [modules.globals] before [parse_args], with no job. *)
Definition no_job : State unit string :=
  mkState [("execution_providers", VStrs []); ("target_path", VNone)] tt [].

(** The events of the readiness stage of [start]. *)
Definition is_readiness {Fps} (ev : Event Fps) : bool :=
  match ev with
  | GetFrameProcessorsModules _ | PreStart _ => true
  | _ => false
  end.




(** Hosts whose hard limit is 8 GB: one that applies the limit, one that
    refuses it. *)
Definition refusing_host : Host unit string :=
  toy_host "Linux" (Ret (-1, 8 * GB))
           (Raise (ValueError "not allowed to raise maximum limit")) (Ret tt) (Ret tt)
           [toy_processor "DLC.FACE-SWAPPER" true].


Definition video_command : list string :=
  ["-s"; "face.png"; "-t"; "target.mp4"; "-o"; "out.mp4"].


(** Every argument of the parser with destination [name] is a
    [store_true] flag. *)
Definition only_store_true (name : string) (p : list Argparse.argument) : bool :=
  forallb (fun a => if String.eqb (Argparse.dest a) name
                    then match Argparse.act a with
                         | Argparse.StoreTrue => true
                         | _ => false
                         end
                    else true) p.

(** A computation that leaves the attribute [name] of [modules.globals]
    as it is. *)
Definition keeps {W Fps A} (name : string) (c : M W Fps A) : Prop :=
  forall st, getattr (globals (snd (c st))) name = getattr (globals st) name.

Definition is_move_temp {Fps} (ev : Event Fps) : bool :=
  match ev with
  | MoveTemp _ _ => true
  | _ => false
  end.

(** A computation that keeps the property [P] of [modules.globals] and
    never moves the temporary video. *)
Definition calm {W Fps A} (P : attrs -> Prop) (c : M W Fps A) : Prop :=
  forall st,
    P (globals st) ->
    P (globals (snd (c st))) /\
    exists evs, trace (snd (c st)) = (trace st ++ evs)%list /\
                existsb is_move_temp evs = false.

(** Audio is kept and the run is headless. *)
Definition audio_kept_headless (g : attrs) : Prop :=
  truth (getattr g "keep_audio") = true /\ truth (getattr g "headless") = true.

(** A computation that, when it returns, leaves the attribute [name] of
    [modules.globals] equal to [v]. *)
Definition ensures {W Fps A} (name : string) (v : value) (c : M W Fps A) : Prop :=
  forall st a st', c st = (Ret a, st') -> getattr (globals st') name = v.

(** The content check stops the path: [nsfw] is set and the predicter
    flags the target. *)
Definition flagged {W Fps} (predict : value -> ext W bool) (st : State W Fps)
  : bool :=
  andb (truth (getattr (globals st) "nsfw"))
       (match fst (predict (getattr (globals st) "target_path") (world st)) with
        | Ret true => true
        | _ => false
        end).

(** The last line printed. *)
Definition last_line {Fps} (evs : list (Event Fps)) : string :=
  last (printed evs) "".

Definition image_succeeded : string := "[DLC.CORE] Processing to image succeeded!".
Definition video_succeeded : string := "[DLC.CORE] Processing to video succeeded!".

(** The statement that the image path reports success exactly when the
    path stored under [which] is a valid image once the path is done. *)
Definition image_status_validates {W Fps} (which : string) (host : Host W Fps)
           (st : State W Fps) : Prop :=
  let st' := snd (process_image_to_image host st) in
  last_line (new_events st st') = image_succeeded <->
  fst (is_image host (getattr (globals st') which) (world st')) = Ret true.

(** The same statement for the video path. *)
Definition video_status_validates {W Fps} (which : string) (host : Host W Fps)
           (st : State W Fps) : Prop :=
  let st' := snd (process_image_to_video host st) in
  last_line (new_events st st') = video_succeeded <->
  fst (is_video host (getattr (globals st') which) (world st')) = Ret true.

(** A host where the output cannot be written: the copy of the target
    fails, and no file appears at the output path. *)
Definition readonly_host : Host unit string :=
  toy_host "Linux" (Ret (-1, 8 * GB)) (Ret tt)
           (Raise (OtherException "PermissionError" "[Errno 13] Permission denied"))
           (Ret tt) [toy_processor "DLC.FACE-SWAPPER" true].

(** A string in which the character [c] does not occur. *)
Fixpoint without (c : ascii) (s : string) : bool :=
  match s with
  | EmptyString => true
  | String d s' => andb (negb (Ascii.eqb d c)) (without c s')
  end.

(** The calls of torch. *)
Definition is_cuda_call {Fps} (ev : Event Fps) : bool :=
  match ev with
  | CudaEmptyCache | CudaIsAvailable => true
  | _ => false
  end.

(** What an argument of the parser can store satisfies [Q]. *)
Definition stores (int_of : string -> option Z) (Q : value -> Prop)
           (a : Argparse.argument) : Prop :=
  match Argparse.act a with
  | Argparse.StoreTrue => Q (VBool true)
  | Argparse.Store ty ch =>
      forall tok v, Argparse.convert int_of ty ch tok = Some v -> Q v
  | Argparse.StoreMany ch =>
      forall l, l <> [] ->
                forallb (fun tok => Argparse.check_choice ch (VStr tok)) l = true ->
                Q (VStrs l)
  | Argparse.Version | Argparse.Help => True
  end.

(** A computation that keeps the property [Q] of the attribute [name] of
    [modules.globals]. *)
Definition maintains {W Fps A} (name : string) (Q : value -> Prop)
           (c : M W Fps A) : Prop :=
  forall st, Q (getattr (globals st) name) ->
             Q (getattr (globals (snd (c st))) name).

(** A non-empty list of strings. *)
Definition nonempty_list (v : value) : Prop :=
  exists l, v = VStrs l /\ l <> [].

(** [modules.globals] after the assignments of [parse_args] that come
    before [handle_deprecated_args]: [output] is the normalized output
    path, [selected] the providers resolved, [enhancer] whether the face
    enhancer is among the frame processors. *)
Definition stored (args : attrs) (output : value) (selected : list string)
           (enhancer : bool) (g : attrs) : attrs :=
  ([("nsfw", VBool false);
   ("fp_ui.face_enhancer", VBool enhancer);
   ("execution_threads", getattr args "execution_threads");
   ("execution_providers", VStrs selected);
   ("max_memory", getattr args "max_memory");
   ("video_quality", getattr args "video_quality");
   ("video_encoder", getattr args "video_encoder");
   ("many_faces", getattr args "many_faces");
   ("keep_frames", getattr args "keep_frames");
   ("keep_audio", getattr args "keep_audio");
   ("keep_fps", getattr args "keep_fps");
   ("headless", py_or (py_or (getattr args "source_path") (getattr args "target_path"))
                      (getattr args "output_path"));
   ("frame_processors", getattr args "frame_processor");
   ("output_path", output);
   ("target_path", getattr args "target_path");
   ("source_path", getattr args "source_path")] ++ g)%list.

(** The host [h] with another [resource.setrlimit]. *)
Definition with_setrlimit {W Fps} (h : Host W Fps)
           (setrlimit : Z -> Z -> ext W unit) : Host W Fps :=
  {| platform_system := platform_system h;
     python_version := python_version h;
     which_ffmpeg := which_ffmpeg h;
     copy2 := copy2 h;
     metadata_name := metadata_name h;
     metadata_version := metadata_version h;
     get_available_providers := get_available_providers h;
     cuda_is_available := cuda_is_available h;
     cuda_empty_cache := cuda_empty_cache h;
     tf_list_gpus := tf_list_gpus h;
     tf_set_memory_growth := tf_set_memory_growth h;
     set_process_working_set_size := set_process_working_set_size h;
     getrlimit_data := getrlimit_data h;
     setrlimit_data := setrlimit;
     normalize_output_path := normalize_output_path h;
     has_image_extension := has_image_extension h;
     is_image := is_image h;
     is_video := is_video h;
     detect_fps := detect_fps h;
     create_video := create_video h;
     extract_frames := extract_frames h;
     get_temp_frame_paths := get_temp_frame_paths h;
     restore_audio := restore_audio h;
     create_temp := create_temp h;
     move_temp := move_temp h;
     clean_temp := clean_temp h;
     predict_image := predict_image h;
     predict_video := predict_video h;
     get_frame_processors_modules := get_frame_processors_modules h;
     ui_status_label := ui_status_label h;
     ui_update_status := ui_update_status h;
     ui_mainloop := ui_mainloop h;
     match_command_line := match_command_line h;
     py_int := py_int h;
     float_30 := float_30 h;
     str_fps := str_fps h;
     str_gb := str_gb h |}.

(** [resource.setrlimit] on a host with no limit on the data segment
    (both limits are -1): a limit that does not fit in a C [long] is an
    [OverflowError], any other limit is accepted. *)
Definition c_long_setrlimit (soft hard : Z) : ext unit unit :=
  fun w =>
    if andb (andb (- 2 ^ 63 <=? soft) (soft <? 2 ^ 63))
            (andb (- 2 ^ 63 <=? hard) (hard <? 2 ^ 63))
    then (Ret tt, w)
    else (Raise (OtherException "OverflowError"
                                "Python int too large to convert to C long"), w).

Definition unlimited_host : Host unit string :=
  with_setrlimit
    (toy_host "Linux" (Ret (-1, -1)) (Ret tt) (Ret tt) (Ret tt)
              [toy_processor "DLC.FACE-SWAPPER" true])
    c_long_setrlimit.

Definition overflow_command : list string :=
  ["-s"; "face.png"; "-t"; "target.mp4"; "-o"; "out.mp4";
   "--max-memory"; "-1099511627776"].


(** The host [h] with another matching of the command line. *)
Definition with_command_line {W Fps} (h : Host W Fps)
           (matcher : list Argparse.argument -> list string -> Argparse.matching)
  : Host W Fps :=
  {| platform_system := platform_system h;
     python_version := python_version h;
     which_ffmpeg := which_ffmpeg h;
     copy2 := copy2 h;
     metadata_name := metadata_name h;
     metadata_version := metadata_version h;
     get_available_providers := get_available_providers h;
     cuda_is_available := cuda_is_available h;
     cuda_empty_cache := cuda_empty_cache h;
     tf_list_gpus := tf_list_gpus h;
     tf_set_memory_growth := tf_set_memory_growth h;
     set_process_working_set_size := set_process_working_set_size h;
     getrlimit_data := getrlimit_data h;
     setrlimit_data := setrlimit_data h;
     normalize_output_path := normalize_output_path h;
     has_image_extension := has_image_extension h;
     is_image := is_image h;
     is_video := is_video h;
     detect_fps := detect_fps h;
     create_video := create_video h;
     extract_frames := extract_frames h;
     get_temp_frame_paths := get_temp_frame_paths h;
     restore_audio := restore_audio h;
     create_temp := create_temp h;
     move_temp := move_temp h;
     clean_temp := clean_temp h;
     predict_image := predict_image h;
     predict_video := predict_video h;
     get_frame_processors_modules := get_frame_processors_modules h;
     ui_status_label := ui_status_label h;
     ui_update_status := ui_update_status h;
     ui_mainloop := ui_mainloop h;
     match_command_line := matcher;
     py_int := py_int h;
     float_30 := float_30 h;
     str_fps := str_fps h;
     str_gb := str_gb h |}.

(** A matching that also reads the form [--option=value]: a word that
    starts with [--] is cut at its first [=]. *)
Fixpoint cut_at_equals (s : string) : option (string * string) :=
  match s with
  | EmptyString => None
  | String "=" rest => Some (EmptyString, rest)
  | String c rest =>
      match cut_at_equals rest with
      | Some (before, after) => Some (String c before, after)
      | None => None
      end
  end.

Definition words_of (tok : string) : list string :=
  if String.prefix "--" tok then
    match cut_at_equals tok with
    | Some (option, v) => [option; v]
    | None => [tok]
    end
  else [tok].

Definition match_with_equals (p : list Argparse.argument) (argv : list string)
  : Argparse.matching :=
  Plain.match_command_line p (flat_map words_of argv).

Definition equals_host : Host unit string :=
  with_command_line linux_host match_with_equals.

(** * Properties *)

(** ** Execution providers *)

Example encode_cuda :
  encode_execution_providers
    ["CUDAExecutionProvider"; "CoreMLExecutionProvider"; "CPUExecutionProvider"]
  = ["cuda"; "coreml"; "cpu"].
Proof. reflexivity. Qed.

Example decode_order :
  decode_execution_providers
    ["CUDAExecutionProvider"; "CoreMLExecutionProvider"; "CPUExecutionProvider"]
    ["cpu"; "tensorrt"; "cuda"]
  = Some ["CPUExecutionProvider"; "CUDAExecutionProvider"].
Proof. reflexivity. Qed.

Example decode_fallback :
  decode_execution_providers ["AzureExecutionProvider"] ["cuda"; "rocm"]
  = Some ["CPUExecutionProvider"].
Proof. reflexivity. Qed.

Lemma mem_encode_cons provider rest req :
  Str.mem req (encode_execution_providers (provider :: rest))
  = orb (String.eqb (encode1 provider) req)
        (Str.mem req (encode_execution_providers rest)).
Proof.
  unfold Str.mem, encode_execution_providers; simpl.
  now rewrite (String.eqb_sym req).
Qed.

(** The subscript of the comprehension never fails: the index found in the
    encoded list designates, in the list of the host, the first provider
    with the requested form. *)
Lemma index_designates_first available req :
  match first_with_form available req with
  | Some provider =>
      Str.mem req (encode_execution_providers available) = true /\
      exists i, Str.index req (encode_execution_providers available) = Some i /\
                nth_error available i = Some provider
  | None => Str.mem req (encode_execution_providers available) = false
  end.
Proof.
  induction available as [|p rest IH]; [reflexivity|].
  rewrite mem_encode_cons. unfold first_with_form in *. simpl.
  destruct (String.eqb (encode1 p) req) eqn:E.
  - split; [reflexivity|]. exists O. now split.
  - simpl. destruct (find _ rest) as [q|].
    + destruct IH as [Hm [i [Hi Hn]]]. split; [exact Hm|].
      exists (S i). unfold encode_execution_providers in *.
      rewrite Hi. now split.
    + exact IH.
Qed.

Lemma select_provider_first available req :
  select_provider available (encode_execution_providers available) req
  = Some (match first_with_form available req with
          | Some provider => [provider]
          | None => []
          end).
Proof.
  unfold select_provider.
  pose proof (index_designates_first available req) as H.
  destruct (first_with_form available req) as [p|].
  - destruct H as [Hm [i [Hi Hn]]]. now rewrite Hm, Hi, Hn.
  - now rewrite H.
Qed.

Lemma select_providers_selected available requested :
  select_providers available (encode_execution_providers available) requested
  = Some (selected_providers available requested).
Proof.
  induction requested as [|req rest IH]; [reflexivity|].
  simpl. now rewrite select_provider_first, IH.
Qed.

Lemma first_with_form_sound available req provider :
  first_with_form available req = Some provider ->
  In provider available /\ encode1 provider = req.
Proof.
  unfold first_with_form. intros H. apply find_some in H.
  destruct H as [Hin Heq]. split; [exact Hin|]. now apply String.eqb_eq.
Qed.

Lemma selected_providers_sound available requested :
  Forall (fun provider => In provider available /\ In (encode1 provider) requested)
         (selected_providers available requested).
Proof.
  unfold selected_providers. apply Forall_flat_map.
  apply Forall_forall. intros req Hreq.
  destruct (first_with_form available req) as [p|] eqn:E; [|constructor].
  apply first_with_form_sound in E. destruct E as [Hin Heq].
  constructor; [|constructor]. split; [exact Hin|]. now rewrite Heq.
Qed.

Lemma selected_providers_order available requested :
  map encode1 (selected_providers available requested)
  = served_requests available requested.
Proof.
  unfold selected_providers, served_requests.
  induction requested as [|req rest IH]; [reflexivity|].
  simpl. rewrite map_app, IH.
  pose proof (index_designates_first available req) as H.
  destruct (first_with_form available req) as [p|] eqn:E.
  - destruct H as [Hm _]. rewrite Hm. simpl.
    apply first_with_form_sound in E. destruct E as [_ Heq]. now rewrite Heq.
  - now rewrite H.
Qed.

(** On a name that ends with the suffix ExecutionProvider and has no
    capital E before it, as the names of onnxruntime are, the canonical
    form is the name without the suffix, in lower case. *)
Lemma encode1_strips_suffix name :
  without "E" name = true ->
  encode1 (name ++ "ExecutionProvider") = Str.lower name.
Proof.
  unfold encode1, Str.remove. intros H. f_equal.
  induction name as [|c name IH]; [reflexivity|].
  simpl in H. apply andb_prop in H. destruct H as [Hc Hrest].
  change (String c name ++ "ExecutionProvider")
    with (String c (name ++ "ExecutionProvider")).
  cbn [Str.remove_from String.prefix].
  destruct (ascii_dec "E" c) as [<- | _].
  - discriminate Hc.
  - now rewrite (IH Hrest).
Qed.

(** C2: for every list of host providers and every list of requests,
    [decode_execution_providers] returns (it raises nothing) a non-empty
    list: the host providers whose canonical form is requested, one for
    each request the host can serve and in the order of the requests, or
    the single provider CPUExecutionProvider when no request can be
    served.  The canonical form is the one of
    [encode_execution_providers]: the name without ExecutionProvider, in
    lower case. *)
Theorem decode_execution_providers_resolves :
  forall available requested : list string,
    let selected := selected_providers available requested in
    exists resolved,
      decode_execution_providers available requested = Some resolved /\
      resolved <> [] /\
      resolved = (match selected with
                  | [] => ["CPUExecutionProvider"]
                  | _ :: _ => selected
                  end) /\
      Forall (fun provider =>
                In provider available /\ In (encode1 provider) requested) selected /\
      encode_execution_providers selected = served_requests available requested.
Proof.
  intros available requested selected.
  unfold decode_execution_providers.
  rewrite select_providers_selected. fold selected.
  eexists. split; [reflexivity|].
  split; [destruct selected; discriminate|].
  split; [reflexivity|].
  split; [apply selected_providers_sound | apply selected_providers_order].
Qed.

(** ** The monad and the trace *)

Lemma new_events_app {W Fps} (st st' : State W Fps) evs :
  trace st' = (trace st ++ evs)%list -> new_events st st' = evs.
Proof.
  unfold new_events. intros ->.
  rewrite skipn_app, Nat.sub_diag, skipn_all. reflexivity.
Qed.

(** The new events of a state whose trace shows them. *)
Ltac settle_events :=
  match goal with
  | |- context [new_events ?a ?b] =>
      erewrite (new_events_app a b)
        by (simpl; rewrite <- ?app_assoc; reflexivity)
  end.

Lemma new_events_refl {W Fps} (st : State W Fps) : new_events st st = [].
Proof. apply new_events_app. now rewrite app_nil_r. Qed.

Section StatusFacts.

Context {W Fps : Type} (host : Host W Fps).

Lemma update_status_returns message scope (st : State W Fps) :
  update_status host message scope st = (Ret tt, status_state host st message scope).
Proof.
  unfold status_state, update_status, print, bind, log, read, ui_report, ret. simpl.
  destruct (negb (truth (getattr (globals st) "headless"))); simpl; [|reflexivity].
  destruct (ui_status_label host (world st)); reflexivity.
Qed.


(** A status message prints one line, and touches nothing but the status
    sinks. *)
Lemma status_state_trace message scope (st : State W Fps) :
  exists evs,
    trace (status_state host st message scope) = (trace st ++ evs)%list /\
    collaborator_calls evs = [] /\
    printed evs = ["[" ++ scope ++ "] " ++ message].
Proof.
  unfold status_state, update_status, print, bind, log, read, ui_report, ret. simpl.
  destruct (negb (truth (getattr (globals st) "headless"))); simpl.
  - destruct (ui_status_label host (world st)); simpl.
    + exists [Print ("[" ++ scope ++ "] " ++ message); UiStatus message].
      rewrite <- app_assoc. now repeat split.
    + exists [Print ("[" ++ scope ++ "] " ++ message)]. now repeat split.
  - exists [Print ("[" ++ scope ++ "] " ++ message)]. now repeat split.
Qed.

End StatusFacts.

Lemma collaborator_calls_app {Fps} (a b : list (Event Fps)) :
  collaborator_calls (a ++ b) = (collaborator_calls a ++ collaborator_calls b)%list.
Proof. apply filter_app. Qed.

Lemma printed_app {Fps} (a b : list (Event Fps)) :
  printed (a ++ b) = (printed a ++ printed b)%list.
Proof. apply flat_map_app. Qed.

Lemma call_run {W Fps A} (ev : Event Fps) (f : ext W A) (st : State W Fps) :
  call ev f st
  = (fst (f (world st)),
     mkState (globals st) (snd (f (world st))) (trace st ++ [ev])).
Proof. unfold call. now destruct (f (world st)). Qed.

(** ** Teardown *)

(** C10: when no target path is set ([None], or an empty string),
    [destroy] calls no collaborator, so it cleans no workspace, and raises
    nothing; with [to_quit] false it returns and leaves the state as it
    was, and with [to_quit] true it only quits. *)
Theorem destroy_without_target :
  forall {W Fps} (host : Host W Fps) (st : State W Fps),
    truth (getattr (globals st) "target_path") = false ->
    destroy host false st = (Ret tt, st) /\
    destroy host true st
    = (SystemExit 0, mkState (globals st) (world st) (trace st ++ [Quit])).
Proof.
  intros W Fps host st H.
  unfold destroy, bind, read, ret, log, sys_exit. simpl.
  rewrite H. simpl. split; reflexivity.
Qed.

Lemma destroy_without_target_witness :
  destroy linux_host false no_job = (Ret tt, no_job) /\
  destroy linux_host true no_job
  = (SystemExit 0, mkState (globals no_job) (world no_job) (trace no_job ++ [Quit])).
Proof. apply (destroy_without_target linux_host no_job). reflexivity. Defined.


(** ** Reconstruction of the video *)

(** C5: when keep-audio is false, [handle_video_audio] does one thing: it
    moves the temporary video to the output path, and [restore_audio] is
    not called; when keep-audio is true, its only call of a collaborator
    is [restore_audio], and nothing is moved.  In both cases it ends as
    that call ends. *)
Theorem handle_video_audio_policy :
  forall {W Fps} (host : Host W Fps) (st : State W Fps),
    let target := getattr (globals st) "target_path" in
    let output := getattr (globals st) "output_path" in
    let evs := new_events st (snd (handle_video_audio host st)) in
    (truth (getattr (globals st) "keep_audio") = false ->
     evs = [MoveTemp target output] /\
     fst (handle_video_audio host st) = fst (move_temp host target output (world st)))
    /\
    (truth (getattr (globals st) "keep_audio") = true ->
     collaborator_calls evs = [RestoreAudio target output]).
Proof.
  intros W Fps host st target output evs. subst evs. split; intros H.
  - unfold handle_video_audio, bind, read. simpl. rewrite H.
    rewrite call_run. simpl. split; [|reflexivity]. now apply new_events_app.
  - unfold handle_video_audio, bind, read. simpl. rewrite H.
    set (message := if truth (getattr (globals st) "keep_fps")
                    then "Restoring audio..."
                    else "Restoring audio might cause issues as fps are not kept...").
    assert (Hs : (if truth (getattr (globals st) "keep_fps")
                  then update_status host "Restoring audio..." CORE
                  else update_status host
                         "Restoring audio might cause issues as fps are not kept..." CORE) st
                 = (Ret tt, status_state host st message CORE)).
    { subst message. destruct (truth (getattr (globals st) "keep_fps"));
        apply update_status_returns. }
    rewrite Hs, call_run. simpl.
    destruct (status_state_trace host message CORE st) as [sevs [Ht [Hc _]]].
    rewrite (new_events_app st _ (sevs ++ [RestoreAudio target output])).
    + rewrite collaborator_calls_app, Hc. reflexivity.
    + simpl. rewrite Ht. now rewrite <- app_assoc.
Qed.

Lemma handle_video_audio_policy_witness :
  (new_events (video_job true false)
              (snd (handle_video_audio linux_host (video_job true false)))
   = [MoveTemp (VStr "target.mp4") (VStr "out.mp4")] /\
   fst (handle_video_audio linux_host (video_job true false)) = Ret tt) /\
  collaborator_calls
    (new_events (video_job true true)
                (snd (handle_video_audio linux_host (video_job true true))))
  = [RestoreAudio (VStr "target.mp4") (VStr "out.mp4")].
Proof.
  split.
  - apply (proj1 (handle_video_audio_policy linux_host (video_job true false))).
    reflexivity.
  - apply (proj2 (handle_video_audio_policy linux_host (video_job true true))).
    reflexivity.
Defined.

(** C6: when keep-audio is true and keep-fps is false,
    [handle_video_audio] prints the warning about the frame rate, then
    calls [restore_audio] all the same; it raises nothing of its own: it
    ends as [restore_audio] ends. *)
Theorem handle_video_audio_warns_and_restores :
  forall {W Fps} (host : Host W Fps) (st : State W Fps),
    truth (getattr (globals st) "keep_audio") = true ->
    truth (getattr (globals st) "keep_fps") = false ->
    let target := getattr (globals st) "target_path" in
    let output := getattr (globals st) "output_path" in
    let warned :=
      status_state host st
        "Restoring audio might cause issues as fps are not kept..." CORE in
    let evs := new_events st (snd (handle_video_audio host st)) in
    printed evs
    = ["[DLC.CORE] Restoring audio might cause issues as fps are not kept..."] /\
    collaborator_calls evs = [RestoreAudio target output] /\
    fst (handle_video_audio host st)
    = fst (restore_audio host target output (world warned)).
Proof.
  intros W Fps host st Ha Hf target output warned evs. subst evs.
  unfold handle_video_audio, bind, read. simpl. rewrite Ha, Hf.
  rewrite update_status_returns. fold warned. rewrite call_run. simpl.
  destruct (status_state_trace host
              "Restoring audio might cause issues as fps are not kept..." CORE st)
    as [sevs [Ht [Hc Hp]]]. fold warned in Ht.
  rewrite (new_events_app st _ (sevs ++ [RestoreAudio target output])).
  - rewrite collaborator_calls_app, printed_app, Hc, Hp. now repeat split.
  - simpl. rewrite Ht. now rewrite <- app_assoc.
Qed.

Lemma handle_video_audio_warns_and_restores_witness :
  printed (new_events (video_job false true)
                      (snd (handle_video_audio linux_host (video_job false true))))
  = ["[DLC.CORE] Restoring audio might cause issues as fps are not kept..."] /\
  collaborator_calls
    (new_events (video_job false true)
                (snd (handle_video_audio linux_host (video_job false true))))
  = [RestoreAudio (VStr "target.mp4") (VStr "out.mp4")] /\
  fst (handle_video_audio linux_host (video_job false true))
  = fst (restore_audio linux_host (VStr "target.mp4") (VStr "out.mp4") tt).
Proof.
  apply (handle_video_audio_warns_and_restores linux_host (video_job false true));
    reflexivity.
Defined.

(** C4: when keep-fps is false, [handle_video_fps] never calls
    [detect_fps]: its only call creates the video at the default rate of
    [create_video], 30.0, which is also the rate it announces; when
    keep-fps is true, it first detects the rate of the target and then
    creates the video at the rate detected (and creates no video when the
    detection fails). *)
Theorem handle_video_fps_policy :
  forall {W Fps} (host : Host W Fps) (st : State W Fps),
    let target := getattr (globals st) "target_path" in
    let evs := new_events st (snd (handle_video_fps host st)) in
    (truth (getattr (globals st) "keep_fps") = false ->
     collaborator_calls evs = [CreateVideo target (create_video_default_fps host)] /\
     printed evs = ["[DLC.CORE] Creating video with 30.0 fps..."])
    /\
    (truth (getattr (globals st) "keep_fps") = true ->
     let detecting := status_state host st "Detecting fps..." CORE in
     match fst (detect_fps host target (world detecting)) with
     | Ret fps => collaborator_calls evs = [DetectFps target; CreateVideo target fps]
     | _ => collaborator_calls evs = [DetectFps target]
     end).
Proof.
  intros W Fps host st target evs. subst evs. split; intros H.
  - unfold handle_video_fps, bind, read. simpl. rewrite H.
    rewrite update_status_returns, call_run. simpl.
    destruct (status_state_trace host "Creating video with 30.0 fps..." CORE st)
      as [sevs [Ht [Hc Hp]]].
    rewrite (new_events_app st _
               (sevs ++ [CreateVideo target (create_video_default_fps host)])).
    + rewrite collaborator_calls_app, printed_app, Hc, Hp. now split.
    + simpl. rewrite Ht. now rewrite <- app_assoc.
  - intros detecting.
    unfold handle_video_fps, bind, read. simpl. rewrite H.
    rewrite update_status_returns. fold detecting. rewrite call_run.
    destruct (status_state_trace host "Detecting fps..." CORE st)
      as [sevs [Ht [Hc _]]]. fold detecting in Ht.
    fold target.
    destruct (detect_fps host target (world detecting)) as [[fps | e | n] w]; simpl.
    + rewrite update_status_returns, call_run. simpl.
      match goal with
      | |- context [status_state host ?s ?m CORE] =>
          destruct (status_state_trace host m CORE s) as [sevs' [Ht' [Hc' _]]]
      end.
      rewrite (new_events_app st _
                 (sevs ++ [DetectFps target] ++ sevs' ++ [CreateVideo target fps])).
      * rewrite !collaborator_calls_app, Hc, Hc'. reflexivity.
      * simpl. simpl in Ht'. rewrite Ht', Ht. now rewrite <- !app_assoc.
    + rewrite (new_events_app st _ (sevs ++ [DetectFps target])).
      * rewrite collaborator_calls_app, Hc. reflexivity.
      * simpl. rewrite Ht. now rewrite <- app_assoc.
    + rewrite (new_events_app st _ (sevs ++ [DetectFps target])).
      * rewrite collaborator_calls_app, Hc. reflexivity.
      * simpl. rewrite Ht. now rewrite <- app_assoc.
Qed.

Lemma handle_video_fps_policy_witness :
  (collaborator_calls
     (new_events (video_job false true)
                 (snd (handle_video_fps linux_host (video_job false true))))
   = [CreateVideo (VStr "target.mp4") "30.0"] /\
   printed
     (new_events (video_job false true)
                 (snd (handle_video_fps linux_host (video_job false true))))
   = ["[DLC.CORE] Creating video with 30.0 fps..."]) /\
  collaborator_calls
    (new_events (video_job true true)
                (snd (handle_video_fps linux_host (video_job true true))))
  = [DetectFps (VStr "target.mp4"); CreateVideo (VStr "target.mp4") "25.0"].
Proof.
  split.
  - apply (proj1 (handle_video_fps_policy linux_host (video_job false true))).
    reflexivity.
  - apply (proj2 (handle_video_fps_policy linux_host (video_job true true))).
    reflexivity.
Defined.

(** ** The readiness stage *)

Section Readiness.

Context {W Fps : Type} (host : Host W Fps).

(** The readiness loop only calls readiness checks. *)
Lemma pre_start_all_events (processors : list (FrameProcessor W)) :
  forall st : State W Fps,
  exists evs,
    trace (snd (pre_start_all processors st)) = (trace st ++ evs)%list /\
    forallb is_readiness evs = true.
Proof.
  induction processors as [|p rest IH]; intros st.
  - exists []. simpl. now rewrite app_nil_r.
  - simpl. unfold bind. rewrite call_run.
    destruct (pre_start_of p (world st)) as [[[|] | e | n] w]; simpl.
    + match goal with
      | |- context [pre_start_all rest ?s] => destruct (IH s) as [evs [Ht Hr]]
      end.
      exists (PreStart (NAME p) :: evs). split.
      * rewrite Ht. simpl. now rewrite <- app_assoc.
      * exact Hr.
    + exists [PreStart (NAME p)]. now split.
    + exists [PreStart (NAME p)]. now split.
    + exists [PreStart (NAME p)]. now split.
Qed.

(** The loop returns [False] exactly when, in the run, a readiness check
    reports not-ready: the checks before it have reported ready, and it
    is the last one called. *)
Lemma pre_start_all_false (processors : list (FrameProcessor W)) :
  forall st : State W Fps,
    fst (pre_start_all processors st) = Ret false <->
    exists before p after,
      processors = (before ++ p :: after)%list /\
      fst (pre_start_all before st) = Ret true /\
      fst (pre_start_of p (world (snd (pre_start_all before st)))) = Ret false.
Proof.
  induction processors as [|q rest IH]; intros st.
  - split.
    + discriminate.
    + intros [before [p [after [H _]]]]. now destruct before.
  - simpl. unfold bind. rewrite call_run.
    destruct (pre_start_of q (world st)) as [[[|] | e | n] w] eqn:E; simpl.
    + rewrite IH. split.
      * intros [before [p [after [-> [Hb Hp]]]]].
        exists (q :: before), p, after. simpl. unfold bind.
        rewrite call_run, E. simpl. now repeat split.
      * intros [[|q' before] [p [after [Heq [Hb Hp]]]]].
        -- simpl in *. injection Heq as <- _. rewrite E in Hp. discriminate.
        -- simpl in Heq. injection Heq as <- ->.
           simpl in Hb, Hp. unfold bind in Hb, Hp.
           rewrite call_run, E in Hb, Hp. simpl in Hb, Hp.
           now exists before, p, after.
    + split; [intros _|reflexivity].
      exists [], q, rest. simpl. rewrite E. now repeat split.
    + split; [discriminate|].
      intros [[|q' before] [p [after [Heq [Hb Hp]]]]].
      * simpl in *. injection Heq as <- _. rewrite E in Hp. discriminate.
      * simpl in Heq. injection Heq as <- ->.
        simpl in Hb. unfold bind in Hb. rewrite call_run, E in Hb. discriminate.
    + split; [discriminate|].
      intros [[|q' before] [p [after [Heq [Hb Hp]]]]].
      * simpl in *. injection Heq as <- _. rewrite E in Hp. discriminate.
      * simpl in Heq. injection Heq as <- ->.
        simpl in Hb. unfold bind in Hb. rewrite call_run, E in Hb. discriminate.
Qed.

End Readiness.

(** C3: whatever the list of frame processors, if in the run a readiness
    check reports not-ready (the loop of the readiness checks of [start]
    returns at it), [start] stops at the readiness stage: it returns where
    the loop ends, and the only calls it has made are the loading of the
    processors and readiness checks; no entry point that processes frames
    is called, no workspace is created and nothing is copied or
    written. *)
Theorem start_all_or_nothing :
  forall {W Fps} (host : Host W Fps) (st : State W Fps)
         (processors : list (FrameProcessor W)),
    fst (load_frame_processors host st) = Ret processors ->
    let loaded := snd (load_frame_processors host st) in
    fst (pre_start_all processors loaded) = Ret false ->
    fst (start host st) = Ret tt /\
    snd (start host st) = snd (pre_start_all processors loaded) /\
    forallb is_readiness (new_events st (snd (start host st))) = true.
Proof.
  intros W Fps host st processors Hload loaded Hnot.
  assert (Hstart : fst (start host st) = Ret tt /\
                   snd (start host st) = snd (pre_start_all processors loaded)).
  { subst loaded. unfold start, bind.
    destruct (load_frame_processors host st) as [r st0]. simpl in *. subst r.
    destruct (pre_start_all processors st0) as [r st1]. simpl in *. subst r.
    now split. }
  destruct Hstart as [Hr Hs]. split; [exact Hr|]. split; [exact Hs|].
  rewrite Hs.
  destruct (pre_start_all_events processors loaded) as [evs [Ht Hev]].
  assert (Hl : trace loaded
               = (trace st ++ [GetFrameProcessorsModules
                                 (getattr (globals st) "frame_processors")])%list).
  { subst loaded. unfold load_frame_processors, bind, read. simpl.
    now rewrite call_run. }
  rewrite (new_events_app st _
             (GetFrameProcessorsModules (getattr (globals st) "frame_processors")
                :: evs)).
  - exact Hev.
  - rewrite Ht, Hl. now rewrite <- app_assoc.
Qed.

Lemma start_all_or_nothing_witness :
  let host := toy_host "Linux" (Ret (-1, 8 * GB)) (Ret tt) (Ret tt) (Ret tt)
                       [toy_processor "DLC.FACE-SWAPPER" true;
                        toy_processor "DLC.FACE-ENHANCER" false] in
  let st := video_job true true in
  fst (start host st) = Ret tt /\
  snd (start host st)
  = snd (pre_start_all [toy_processor "DLC.FACE-SWAPPER" true;
                        toy_processor "DLC.FACE-ENHANCER" false]
                       (snd (load_frame_processors host st))) /\
  forallb is_readiness (new_events st (snd (start host st))) = true.
Proof.
  apply (start_all_or_nothing
           (toy_host "Linux" (Ret (-1, 8 * GB)) (Ret tt) (Ret tt) (Ret tt)
                     [toy_processor "DLC.FACE-SWAPPER" true;
                      toy_processor "DLC.FACE-ENHANCER" false])
           (video_job true true)
           [toy_processor "DLC.FACE-SWAPPER" true;
            toy_processor "DLC.FACE-ENHANCER" false]).
  - reflexivity.
  - reflexivity.
Defined.

Example not_ready_run :
  new_events (video_job true true)
    (snd (start (toy_host "Linux" (Ret (-1, 8 * GB)) (Ret tt) (Ret tt) (Ret tt)
                          [toy_processor "DLC.FACE-SWAPPER" true;
                           toy_processor "DLC.FACE-ENHANCER" false])
                (video_job true true)))
  = [GetFrameProcessorsModules (VStrs ["face_swapper"]);
     PreStart "DLC.FACE-SWAPPER"; PreStart "DLC.FACE-ENHANCER"].
Proof. reflexivity. Qed.

(** ** Resource limits *)

Section Limits.

Context {W Fps : Type} (host : Host W Fps).


End Limits.



Example overflow_run :
  let st' := snd (run unlimited_host overflow_command no_job) in
  collaborator_calls
    (new_events (snd (parse_args unlimited_host overflow_command no_job)) st')
  = [WhichFfmpeg; GetFrameProcessorsModules (VStrs ["face_swapper"]);
     PreCheck "DLC.FACE-SWAPPER"; TfListGpus; GetRlimit;
     SetRlimit (-1099511627776 * GB) (-1099511627776 * GB);
     CleanTemp (VStr "target.mp4"); Quit] /\
  fst (run unlimited_host overflow_command no_job) = SystemExit 0.
Proof. split; vm_compute; reflexivity. Qed.



Example refused_limit_run :
  printed (new_events (video_job true true)
             (snd (limit_resources refusing_host (video_job true true))))
  = ["Warning: Requested memory limit 16.0 GB exceeds system's hard limit. Setting to maximum allowed 8.0 GB.";
     "Warning: Could not set memory limit: not allowed to raise maximum limit. Continuing with default limits."]
  /\ fst (limit_resources refusing_host (video_job true true)) = Ret tt.
Proof. split; vm_compute; reflexivity. Qed.

(** ** Teardown on the exit paths *)



(** ** The command line *)

Lemma only_store_true_in name p a :
  only_store_true name p = true -> In a p ->
  String.eqb (Argparse.dest a) name = true -> Argparse.act a = Argparse.StoreTrue.
Proof.
  unfold only_store_true. rewrite forallb_forall. intros H Hin Heq.
  specialize (H a Hin). rewrite Heq in H.
  destruct (Argparse.act a); try discriminate. reflexivity.
Qed.

(** An action that stores under another name leaves [name] as it is; a
    [store_true] action stores [True]. *)
Lemma invoke_keeps_true int_of name a strings ns ns' :
  (String.eqb (Argparse.dest a) name = true -> Argparse.act a = Argparse.StoreTrue) ->
  getattr ns name = VBool true ->
  Argparse.invoke int_of a strings ns = Argparse.Next ns' ->
  getattr ns' name = VBool true.
Proof.
  intros Hact Hns. unfold Argparse.invoke.
  destruct (String.eqb (Argparse.dest a) name) eqn:D.
  - rewrite (Hact eq_refl). destruct strings; [|discriminate].
    intros H. injection H as <-. simpl. now rewrite D.
  - destruct (Argparse.act a) as [ty ch | ch | | |]; try discriminate.
    + destruct strings as [|tok [|tok' rest]]; try discriminate.
      destruct (Argparse.convert int_of ty ch tok); [|discriminate].
      intros H. injection H as <-. simpl. now rewrite D.
    + destruct strings as [|tok rest]; [discriminate|].
      destruct (forallb _ (tok :: rest)); [|discriminate].
      intros H. injection H as <-. simpl. now rewrite D.
    + destruct strings; [|discriminate].
      intros H. injection H as <-. simpl. now rewrite D.
Qed.

(** An action that ends the parsing gives no namespace. *)
Lemma invoke_stop int_of a strings ns args :
  Argparse.invoke int_of a strings ns <> Argparse.Stop (Argparse.Parsed args).
Proof.
  unfold Argparse.invoke.
  destruct (Argparse.act a) as [ty ch | ch | | |].
  - destruct strings as [|tok [|tok' rest]]; try discriminate.
    destruct (Argparse.convert int_of ty ch tok); discriminate.
  - destruct strings as [|tok rest]; [discriminate|].
    destruct (forallb _ (tok :: rest)); discriminate.
  - destruct strings; discriminate.
  - discriminate.
  - discriminate.
Qed.

(** A flag that only [store_true] arguments write, once true, is true in
    every namespace the parser returns, whatever arguments the command
    line uses and whatever strings they receive. *)
Lemma apply_uses_keeps_true int_of name p :
  only_store_true name p = true ->
  forall uses ns args,
    getattr ns name = VBool true ->
    Argparse.apply_uses int_of p uses ns = Argparse.Parsed args ->
    getattr args name = VBool true.
Proof.
  intros Hp. induction uses as [|[i strings] rest IH]; intros ns args Hns H;
    simpl in H.
  - injection H as <-. exact Hns.
  - destruct (nth_error p i) as [a|] eqn:N; [|discriminate].
    apply nth_error_In in N.
    destruct (Argparse.invoke int_of a strings ns) as [ns'|r] eqn:V.
    + apply (IH ns' args); [|exact H].
      eapply invoke_keeps_true; [|exact Hns | exact V].
      exact (only_store_true_in name p a Hp N).
    + subst r. now apply invoke_stop in V.
Qed.

Example parse_flags :
  match Argparse.parse Plain.match_command_line Plain.parse_int
          (program 16 ["cuda"; "cpu"] 8)
          ["-t"; "clip.mp4"; "--keep-fps"; "--execution-provider"; "cpu"; "cuda";
           "--video-quality"; "20"] with
  | Argparse.Parsed args =>
      (getattr args "target_path", getattr args "keep_fps",
       getattr args "keep_audio", getattr args "execution_provider",
       getattr args "video_quality", getattr args "max_memory")
      = (VStr "clip.mp4", VBool true, VBool true, VStrs ["cpu"; "cuda"],
         VInt 20, VInt 16)
  | _ => False
  end.
Proof. reflexivity. Qed.

Example parse_rejects_quality :
  Argparse.parse Plain.match_command_line Plain.parse_int
                 (program 16 ["cpu"] 8) ["--video-quality"; "52"]
  = Argparse.UsageError.
Proof. reflexivity. Qed.

Example parse_rejects_flag_value :
  Argparse.parse Plain.match_command_line Plain.parse_int
                 (program 16 ["cpu"] 8) ["--keep-audio"; "false"]
  = Argparse.UsageError.
Proof. reflexivity. Qed.

Example parse_negative_memory :
  match Argparse.parse Plain.match_command_line Plain.parse_int
          (program 16 ["cpu"] 8) ["--max-memory"; "-4"] with
  | Argparse.Parsed args => getattr args "max_memory" = VInt (-4)
  | _ => False
  end.
Proof. reflexivity. Qed.

(** Whatever the command line and however the library matches it, the
    namespace of [parse_args] holds [keep_audio = True]. *)
Lemma parsed_keep_audio matcher int_of max_memory_default providers threads
      argv args :
  Argparse.parse matcher int_of (program max_memory_default providers threads) argv
  = Argparse.Parsed args ->
  getattr args "keep_audio" = VBool true.
Proof.
  unfold Argparse.parse. intros H.
  destruct (matcher _ argv) as [uses|]; [|discriminate].
  eapply (apply_uses_keeps_true int_of "keep_audio"); [| | exact H].
  - reflexivity.
  - reflexivity.
Qed.

Section Frames.

Context {W Fps : Type}.

Implicit Types st : State W Fps.

Lemma bind_returns {A B} (c : M W Fps A) (k : A -> M W Fps B) st b st' :
  bind c k st = (Ret b, st') ->
  exists a st1, c st = (Ret a, st1) /\ k a st1 = (Ret b, st').
Proof.
  unfold bind. destruct (c st) as [[a | e | n] st1]; try discriminate.
  intros H. now exists a, st1.
Qed.

Lemma keeps_ret {A} name (a : A) : keeps name (ret a : M W Fps A).
Proof. intros st. reflexivity. Qed.

Lemma keeps_raise {A} name e : keeps name (raise e : M W Fps A).
Proof. intros st. reflexivity. Qed.

Lemma keeps_or_raise {A} name cls (o : option A) :
  keeps name (or_raise cls o : M W Fps A).
Proof. intros st. destruct o; reflexivity. Qed.

Lemma keeps_log name ev : keeps name (log ev : M W Fps unit).
Proof. intros st. reflexivity. Qed.

Lemma keeps_read name name' : keeps name (read name' : M W Fps value).
Proof. intros st. reflexivity. Qed.

Lemma keeps_call {A} name ev (f : ext W A) : keeps name (call ev f : M W Fps A).
Proof. intros st. now rewrite call_run. Qed.

Lemma keeps_assign name name' v :
  String.eqb name' name = false -> keeps name (assign name' v : M W Fps unit).
Proof. intros H st. simpl. now rewrite H. Qed.

Lemma keeps_bind {A B} name (c : M W Fps A) (k : A -> M W Fps B) :
  keeps name c -> (forall a, keeps name (k a)) -> keeps name (bind c k).
Proof.
  intros Hc Hk st. unfold bind. specialize (Hc st).
  destruct (c st) as [[a | e | n] st1]; simpl in *; try exact Hc.
  now rewrite (Hk a st1).
Qed.

Lemma keeps_if {A} name (b : bool) (c d : M W Fps A) :
  keeps name c -> keeps name d -> keeps name (if b then c else d).
Proof. now destruct b. Qed.

End Frames.

Ltac keeps_step :=
  first [ apply keeps_ret | apply keeps_raise | apply keeps_or_raise
        | apply keeps_log | apply keeps_read | apply keeps_call
        | apply keeps_assign; reflexivity
        | apply keeps_if
        | apply keeps_bind; [| intros ?] ].

Lemma handle_deprecated_args_keeps {W Fps} (host : Host W Fps) args :
  keeps "keep_audio" (handle_deprecated_args host args).
Proof.
  unfold handle_deprecated_args, decode_execution_providers_call, print.
  repeat keeps_step.
Qed.

Section Ensures.

Context {W Fps : Type}.

Lemma ensures_bind {A B} name v (c : M W Fps A) (k : A -> M W Fps B) :
  (forall a, ensures name v (k a)) -> ensures name v (bind c k).
Proof.
  intros Hk st b st' H. apply bind_returns in H.
  destruct H as [a [st1 [_ H]]]. exact (Hk a st1 b st' H).
Qed.

Lemma ensures_assign {B} name v (rest : M W Fps B) :
  keeps name rest -> ensures name v (bind (assign name v) (fun _ => rest)).
Proof.
  intros Hrest st b st' H. unfold bind in H. simpl in H.
  specialize (Hrest (mkState (setattr (globals st) name v) (world st) (trace st))).
  match type of H with
  | context [rest ?s] => destruct (rest s) as [r st2]
  end.
  simpl in Hrest.
  assert (E : String.eqb name name = true) by apply String.eqb_refl.
  rewrite E in Hrest. injection H as -> ->. exact Hrest.
Qed.

Lemma ensures_exit {A B} name v (c : M W Fps A) status :
  ensures name v (bind c (fun _ => sys_exit status : M W Fps B)).
Proof.
  intros st b st' H. apply bind_returns in H.
  destruct H as [a [st1 [_ H]]]. discriminate.
Qed.

End Ensures.

Lemma store_args_keep_audio {W Fps} (host : Host W Fps) args :
  ensures "keep_audio" (getattr args "keep_audio") (store_args host args).
Proof.
  unfold store_args.
  repeat first [ apply ensures_assign | apply ensures_bind; intros ? ].
  unfold decode_execution_providers_call.
  repeat first [ apply handle_deprecated_args_keeps | keeps_step ].
Qed.

Lemma parse_args_keep_audio {W Fps} (host : Host W Fps) argv :
  ensures "keep_audio" (VBool true) (parse_args host argv).
Proof.
  unfold parse_args.
  do 4 (apply ensures_bind; intros ?).
  destruct (Argparse.parse _ _ _ argv) as [args | | |] eqn:E.
  - rewrite <- (parsed_keep_audio _ _ _ _ _ _ _ E). apply store_args_keep_audio.
  - apply ensures_exit.
  - apply ensures_exit.
  - apply ensures_exit.
Qed.

(** ** Computations that never move the temporary video *)

Section Calm.

Context {W Fps : Type}.

Implicit Types (st : State W Fps) (P : attrs -> Prop).

Lemma calm_here {A} P (r : outcome A) : calm P (fun st => (r, st)).
Proof.
  intros st HP. split; [exact HP|]. exists []. simpl. now rewrite app_nil_r.
Qed.

Lemma calm_ret {A} P (a : A) : calm P (ret a : M W Fps A).
Proof. apply calm_here. Qed.

Lemma calm_raise {A} P e : calm P (raise e : M W Fps A).
Proof. apply calm_here. Qed.

Lemma calm_sys_exit {A} P n : calm P (sys_exit n : M W Fps A).
Proof. apply calm_here. Qed.

Lemma calm_or_raise {A} P cls (o : option A) : calm P (or_raise cls o : M W Fps A).
Proof. destruct o; apply calm_here. Qed.

Lemma calm_read P name : calm P (read name : M W Fps value).
Proof.
  intros st HP. split; [exact HP|]. exists []. simpl. now rewrite app_nil_r.
Qed.

Lemma calm_log P (ev : Event Fps) :
  is_move_temp ev = false -> calm P (log ev : M W Fps unit).
Proof.
  intros Hev st HP. split; [exact HP|]. exists [ev]. simpl. now rewrite Hev.
Qed.

Lemma calm_call {A} P (ev : Event Fps) (f : ext W A) :
  is_move_temp ev = false -> calm P (call ev f : M W Fps A).
Proof.
  intros Hev st HP. rewrite call_run. split; [exact HP|].
  exists [ev]. simpl. now rewrite Hev.
Qed.

Lemma calm_assign name v :
  calm (fun _ => True) (assign name v : M W Fps unit).
Proof.
  intros st _. split; [exact I|]. exists []. simpl. now rewrite app_nil_r.
Qed.

Lemma calm_bind {A B} P (c : M W Fps A) (k : A -> M W Fps B) :
  calm P c -> (forall a, calm P (k a)) -> calm P (bind c k).
Proof.
  intros Hc Hk st HP. unfold bind.
  destruct (Hc st HP) as [HP1 [evs [Ht Hn]]].
  destruct (c st) as [[a | e | n] st1]; simpl in *;
    try (split; [exact HP1 | now exists evs]).
  destruct (Hk a st1 HP1) as [HP2 [evs2 [Ht2 Hn2]]].
  split; [exact HP2|]. exists (evs ++ evs2)%list. split.
  - rewrite Ht2, Ht. now rewrite app_assoc.
  - rewrite existsb_app, Hn, Hn2. reflexivity.
Qed.

Lemma calm_if {A} P (b : bool) (c d : M W Fps A) :
  calm P c -> calm P d -> calm P (if b then c else d).
Proof. now destruct b. Qed.

Lemma calm_try_except {A} P (body : M W Fps A) handler :
  calm P body -> (forall e, calm P (handler e)) -> calm P (try_except body handler).
Proof.
  intros Hc Hk st HP. unfold try_except.
  destruct (Hc st HP) as [HP1 [evs [Ht Hn]]].
  destruct (body st) as [[a | e | n] st1]; simpl in *;
    try (split; [exact HP1 | now exists evs]).
  destruct (Hk e st1 HP1) as [HP2 [evs2 [Ht2 Hn2]]].
  split; [exact HP2|]. exists (evs ++ evs2)%list. split.
  - rewrite Ht2, Ht. now rewrite app_assoc.
  - rewrite existsb_app, Hn, Hn2. reflexivity.
Qed.

Lemma calm_try_except_ValueError {A} P (body : M W Fps A) handler :
  calm P body -> (forall e, calm P (handler e)) ->
  calm P (try_except_ValueError body handler).
Proof.
  intros Hc Hk st HP. unfold try_except_ValueError.
  destruct (Hc st HP) as [HP1 [evs [Ht Hn]]].
  destruct (body st) as [[a | [msg | cls msg] | n] st1]; simpl in *;
    try (split; [exact HP1 | now exists evs]).
  destruct (Hk (ValueError msg) st1 HP1) as [HP2 [evs2 [Ht2 Hn2]]].
  split; [exact HP2|]. exists (evs ++ evs2)%list. split.
  - rewrite Ht2, Ht. now rewrite app_assoc.
  - rewrite existsb_app, Hn, Hn2. reflexivity.
Qed.

Lemma calm_for_each {A} P (l : list A) (body : A -> M W Fps unit) :
  (forall x, calm P (body x)) -> calm P (for_each l body).
Proof.
  intros Hb. induction l as [|x l IH]; simpl.
  - apply calm_ret.
  - apply calm_bind; [apply Hb | intros _; exact IH].
Qed.

Lemma bind_read {B} name (k : value -> M W Fps B) st :
  bind (read name) k st = k (getattr (globals st) name) st.
Proof. reflexivity. Qed.

End Calm.

Create HintDb calm.

Ltac calm_step :=
  first [ solve [auto 1 with calm nocore]
        | apply calm_ret | apply calm_raise | apply calm_sys_exit
        | apply calm_or_raise | apply calm_read | apply calm_assign
        | apply calm_log; reflexivity
        | apply calm_call; reflexivity
        | apply calm_if
        | apply calm_try_except_ValueError; [| intros ?]
        | apply calm_try_except; [| intros ?]
        | apply calm_for_each; intros ?
        | apply calm_bind; [| intros ?]
        | progress cbv zeta ].

Lemma calm_ui_report {W Fps} (host : Host W Fps) P message :
  calm P (ui_report host message).
Proof.
  intros st HP. unfold ui_report.
  destruct (ui_status_label host (world st)); simpl.
  - split; [exact HP|]. now exists [UiStatus message].
  - split; [exact HP|]. exists []. now rewrite app_nil_r.
Qed.

#[local] Hint Resolve calm_ui_report : calm.

Lemma calm_update_status {W Fps} (host : Host W Fps) P message scope :
  calm P (update_status host message scope).
Proof. unfold update_status, print. repeat calm_step. Qed.

#[local] Hint Resolve calm_update_status : calm.

Lemma calm_destroy {W Fps} (host : Host W Fps) P to_quit :
  calm P (destroy host to_quit).
Proof. unfold destroy. repeat calm_step. Qed.

Lemma calm_release_resources {W Fps} (host : Host W Fps) P :
  calm P (release_resources host).
Proof. unfold release_resources. repeat calm_step. Qed.

Lemma calm_load_frame_processors {W Fps} (host : Host W Fps) P :
  calm P (load_frame_processors host).
Proof. unfold load_frame_processors. repeat calm_step. Qed.

#[local] Hint Resolve calm_destroy calm_release_resources
  calm_load_frame_processors : calm.

Lemma calm_pre_check {W Fps} (host : Host W Fps) P : calm P (pre_check host).
Proof. unfold pre_check. repeat calm_step. Qed.

Lemma calm_pre_check_all {W Fps} P (processors : list (FrameProcessor W)) :
  calm P (pre_check_all processors : M W Fps bool).
Proof.
  induction processors as [|p rest IH]; simpl; repeat calm_step.
Qed.

Lemma calm_pre_start_all {W Fps} P (processors : list (FrameProcessor W)) :
  calm P (pre_start_all processors : M W Fps bool).
Proof.
  induction processors as [|p rest IH]; simpl; repeat calm_step.
Qed.

Lemma calm_limit_resources {W Fps} (host : Host W Fps) P :
  calm P (limit_resources host).
Proof.
  unfold limit_resources, prevent_tensorflow_memory_leak, limit_memory_usage,
    set_data_limit, print.
  repeat calm_step.
Qed.

Lemma calm_handle_video_fps {W Fps} (host : Host W Fps) P :
  calm P (handle_video_fps host).
Proof. unfold handle_video_fps. repeat calm_step. Qed.

#[local] Hint Resolve calm_pre_check calm_pre_check_all calm_pre_start_all
  calm_limit_resources calm_handle_video_fps : calm.

(** With audio kept, the audio step restores the audio and does not move
    the video. *)
Lemma calm_handle_video_audio {W Fps} (host : Host W Fps) :
  calm audio_kept_headless (handle_video_audio host).
Proof.
  intros st HP. pose proof HP as [Ha Hh].
  unfold handle_video_audio. rewrite !bind_read, Ha.
  match goal with
  | |- context [snd (?c st)] =>
      assert (HC : calm audio_kept_headless c) by (repeat calm_step)
  end.
  exact (HC st HP).
Qed.

#[local] Hint Resolve calm_handle_video_audio : calm.

Lemma calm_process_image_to_image {W Fps} (host : Host W Fps) P :
  calm P (process_image_to_image host).
Proof. unfold process_image_to_image, print. repeat calm_step. Qed.

Lemma calm_process_image_to_video {W Fps} (host : Host W Fps) :
  calm audio_kept_headless (process_image_to_video host).
Proof. unfold process_image_to_video. repeat calm_step. Qed.

#[local] Hint Resolve calm_process_image_to_image calm_process_image_to_video : calm.

Lemma calm_start {W Fps} (host : Host W Fps) :
  calm audio_kept_headless (start host).
Proof. unfold start. repeat calm_step. Qed.

Lemma calm_run_handler {W Fps} (host : Host W Fps) P e :
  calm P (run_handler host e).
Proof. unfold run_handler, print. repeat calm_step. Qed.

Lemma calm_parse_args {W Fps} (host : Host W Fps) argv :
  calm (fun _ => True) (parse_args host argv).
Proof.
  unfold parse_args, store_args, handle_deprecated_args,
    decode_execution_providers_call, print.
  repeat calm_step.
  destruct (Argparse.parse _ _ _ argv); repeat calm_step.
Qed.

#[local] Hint Resolve calm_start calm_run_handler calm_parse_args : calm.

Lemma calm_dispatch {W Fps} (host : Host W Fps) :
  calm audio_kept_headless
       (headless <- read "headless" ;;
        if truth headless then start host
        else log UiMainloop ;; ui_mainloop host (start host) (destroy host)).
Proof.
  intros st HP. pose proof HP as [Ha Hh].
  rewrite bind_read, Hh. now apply calm_start.
Qed.

#[local] Hint Resolve calm_dispatch : calm.

(** In headless mode with audio kept, what [run] does after [parse_args]
    never moves the temporary video. *)
Lemma calm_after_parse {W Fps} (host : Host W Fps) :
  calm audio_kept_headless
       (ok <- pre_check host ;;
        if negb ok then ret tt
        else
          processors <- load_frame_processors host ;;
          ok <- pre_check_all processors ;;
          if negb ok then ret tt
          else
            limit_resources host ;;
            headless <- read "headless" ;;
            if truth headless then start host
            else log UiMainloop ;; ui_mainloop host (start host) (destroy host)).
Proof. repeat calm_step. Qed.

(** C9: whatever the command line, and however [argparse] matches its
    words to the options of the parser, when [parse_args] returns, the
    flag [keep_audio] of the configuration is true: the only argument that
    stores into it is a [store_true] flag whose default is already true.
    So a headless run started from the command line never takes the branch
    of the audio step that moves the temporary video: [move_temp] is not
    called. *)
Theorem keep_audio_always_true :
  forall {W Fps} (host : Host W Fps) (argv : list string) (st : State W Fps),
    let parsed := snd (parse_args host argv st) in
    (fst (parse_args host argv st) = Ret tt ->
     getattr (globals parsed) "keep_audio" = VBool true) /\
    (truth (getattr (globals parsed) "headless") = true ->
     existsb is_move_temp (new_events st (snd (run host argv st))) = false).
Proof.
  intros W Fps host argv st parsed. subst parsed.
  assert (Hkeep : fst (parse_args host argv st) = Ret tt ->
                  getattr (globals (snd (parse_args host argv st))) "keep_audio"
                  = VBool true).
  { intros H. apply (parse_args_keep_audio host argv st tt).
    destruct (parse_args host argv st) as [r st1]. simpl in H. now subst r. }
  split; [exact Hkeep|]. intros Hheadless.
  destruct (calm_parse_args host argv st I) as [_ [evs1 [Ht1 Hn1]]].
  unfold run, try_except, run_body. unfold bind at 1.
  destruct (parse_args host argv st) as [[[] | e | n] st1]; simpl in *.
  - assert (HP : audio_kept_headless (globals st1)).
    { split; [|exact Hheadless]. now rewrite (Hkeep eq_refl). }
    destruct (calm_after_parse host st1 HP) as [_ [evs2 [Ht2 Hn2]]].
    match goal with
    | |- context [match ?c with _ => _ end] =>
        destruct c as [[[] | e | n] st2]
    end; simpl in *.
    + rewrite (new_events_app st st2 (evs1 ++ evs2)).
      * now rewrite existsb_app, Hn1, Hn2.
      * now rewrite Ht2, Ht1, app_assoc.
    + destruct (calm_run_handler host (fun _ => True) e st2 I)
        as [_ [evs3 [Ht3 Hn3]]].
      rewrite (new_events_app st _ (evs1 ++ evs2 ++ evs3)).
      * now rewrite !existsb_app, Hn1, Hn2, Hn3.
      * now rewrite Ht3, Ht2, Ht1, !app_assoc.
    + rewrite (new_events_app st st2 (evs1 ++ evs2)).
      * now rewrite existsb_app, Hn1, Hn2.
      * now rewrite Ht2, Ht1, app_assoc.
  - destruct (calm_run_handler host (fun _ => True) e st1 I)
      as [_ [evs3 [Ht3 Hn3]]].
    rewrite (new_events_app st _ (evs1 ++ evs3)).
    + now rewrite existsb_app, Hn1, Hn3.
    + now rewrite Ht3, Ht1, app_assoc.
  - now rewrite (new_events_app st st1 evs1).
Qed.

Lemma keep_audio_always_true_witness :
  (getattr (globals (snd (parse_args linux_host
                            ["-s"; "face.png"; "-t"; "target.mp4"; "--keep-fps"]
                            no_job)))
           "keep_audio" = VBool true /\
   getattr (globals (snd (parse_args equals_host
                            ["--target=target.mp4"; "--max-memory=4"; "--keep-audio"]
                            no_job)))
           "keep_audio" = VBool true) /\
  existsb is_move_temp
          (new_events no_job (snd (run linux_host video_command no_job))) = false.
Proof.
  split; [split|].
  - apply (proj1 (keep_audio_always_true linux_host
                    ["-s"; "face.png"; "-t"; "target.mp4"; "--keep-fps"] no_job)).
    vm_compute. reflexivity.
  - apply (proj1 (keep_audio_always_true equals_host
                    ["--target=target.mp4"; "--max-memory=4"; "--keep-audio"]
                    no_job)).
    vm_compute. reflexivity.
  - apply (proj2 (keep_audio_always_true linux_host video_command no_job)).
    vm_compute. reflexivity.
Defined.

Example equals_form_run :
  let st' := snd (parse_args equals_host
                    ["--target=target.mp4"; "--max-memory=4"; "--keep-audio"]
                    no_job) in
  (getattr (globals st') "target_path", getattr (globals st') "max_memory",
   getattr (globals st') "keep_audio")
  = (VStr "target.mp4", VInt 4, VBool true).
Proof. vm_compute. reflexivity. Qed.

Example headless_video_run :
  collaborator_calls (new_events no_job (snd (run linux_host video_command no_job)))
  = [SignalSigint; GetAvailableProviders;
     NormalizeOutputPath (VStr "face.png") (VStr "target.mp4") (VStr "out.mp4");
     GetAvailableProviders; WhichFfmpeg;
     GetFrameProcessorsModules (VStrs ["face_swapper"]);
     PreCheck "DLC.FACE-SWAPPER"; TfListGpus; GetRlimit;
     SetRlimit (8 * GB) (8 * GB);
     GetFrameProcessorsModules (VStrs ["face_swapper"]);
     PreStart "DLC.FACE-SWAPPER"; HasImageExtension (VStr "target.mp4");
     CreateTemp (VStr "target.mp4"); ExtractFrames (VStr "target.mp4");
     GetTempFramePaths (VStr "target.mp4");
     GetFrameProcessorsModules (VStrs ["face_swapper"]);
     ProcessVideo "DLC.FACE-SWAPPER" (VStr "face.png")
                  ["0001.png"; "0002.png"; "0003.png"];
     CreateVideo (VStr "target.mp4") "30.0";
     RestoreAudio (VStr "target.mp4") (VStr "out.mp4");
     CleanTemp (VStr "target.mp4"); IsVideo (VStr "target.mp4")].
Proof. vm_compute. reflexivity. Qed.

(** ** The terminal status *)

Ltac step H :=
  let a := fresh "a" in
  let s := fresh "st" in
  let E := fresh "E" in
  apply bind_returns in H; destruct H as [a [s [E H]]].

Lemma last_line_status {W Fps} (host : Host W Fps) (st : State W Fps) message :
  last_line (trace (status_state host st message CORE))
  = "[DLC.CORE] " ++ message.
Proof.
  destruct (status_state_trace host message CORE st) as [evs [Ht [_ Hp]]].
  unfold last_line. rewrite Ht, printed_app, Hp. apply last_last.
Qed.

(** When the content check does not stop the path, its result is
    [False]. *)
Lemma not_flagged {W Fps} (predict : value -> ext W bool) ev (st st1 : State W Fps)
      (b : bool) :
  flagged predict st = false ->
  (if truth (getattr (globals st) "nsfw")
   then call ev (predict (getattr (globals st) "target_path"))
   else ret false) st = (Ret b, st1) ->
  b = false.
Proof.
  unfold flagged. intros Hf H.
  destruct (truth (getattr (globals st) "nsfw")); simpl in Hf.
  - rewrite call_run in H. injection H as Hr _. rewrite Hr in Hf.
    now destruct b.
  - now injection H as <- _.
Qed.

(** What the two paths report: on the image path and on the video path,
    once the chain of processors (and, for a video, the reconstruction)
    has completed, the status reported is decided by validating the media
    type of the target path: the path asks [is_image], respectively
    [is_video], about the target path, and the last line printed announces
    success exactly when the answer is true. *)
Theorem terminal_status_validates_target :
  forall {W Fps} (host : Host W Fps) (st st' : State W Fps),
    let target := getattr (globals st) "target_path" in
    (process_image_to_image host st = (Ret tt, st') ->
     flagged (predict_image host) st = false ->
     exists mid valid,
       fst (is_image host target (world mid)) = Ret valid /\
       st' = status_state host
               (mkState (globals mid) (snd (is_image host target (world mid)))
                        (trace mid ++ [IsImage target]))
               (if valid then "Processing to image succeeded!"
                else "Processing to image failed!") CORE /\
       (last_line (trace st') = image_succeeded <-> valid = true))
    /\
    (process_image_to_video host st = (Ret tt, st') ->
     flagged (predict_video host) st = false ->
     exists mid valid,
       fst (is_video host target (world mid)) = Ret valid /\
       st' = status_state host
               (mkState (globals mid) (snd (is_video host target (world mid)))
                        (trace mid ++ [IsVideo target]))
               (if valid then "Processing to video succeeded!"
                else "Processing to video failed!") CORE /\
       (last_line (trace st') = video_succeeded <-> valid = true)).
Proof.
  intros W Fps host st st' target. split; intros H Hf.
  - unfold process_image_to_image in H. rewrite !bind_read in H. fold target in H.
    step H. apply (not_flagged _ _ _ _ _ Hf) in E. subst a.
    rewrite !bind_read in H.
    do 3 step H.
    apply bind_returns in H. destruct H as [valid [stv [Ev H]]].
    rewrite call_run in Ev. injection Ev as Hv Hs.
    match type of Hv with
    | fst (_ _ _ (world ?m)) = _ => exists m, valid
    end.
    split; [exact Hv|].
    assert (Hst : st' = status_state host stv
                          (if valid then "Processing to image succeeded!"
                           else "Processing to image failed!") CORE).
    { destruct valid; rewrite update_status_returns in H; now injection H as <-. }
    subst stv. split; [exact Hst|].
    rewrite Hst, last_line_status.
    destruct valid; split; intros; try reflexivity; discriminate.
  - unfold process_image_to_video in H. rewrite !bind_read in H. fold target in H.
    step H. apply (not_flagged _ _ _ _ _ Hf) in E. subst a.
    rewrite !bind_read in H.
    do 10 step H.
    apply bind_returns in H. destruct H as [valid [stv [Ev H]]].
    rewrite call_run in Ev. injection Ev as Hv Hs.
    match type of Hv with
    | fst (_ _ _ (world ?m)) = _ => exists m, valid
    end.
    split; [exact Hv|].
    assert (Hst : st' = status_state host stv
                          (if valid then "Processing to video succeeded!"
                           else "Processing to video failed!") CORE).
    { destruct valid; rewrite update_status_returns in H; now injection H as <-. }
    subst stv. split; [exact Hst|].
    rewrite Hst, last_line_status.
    destruct valid; split; intros; try reflexivity; discriminate.
Qed.

Lemma terminal_status_validates_target_witness :
  (exists mid valid,
      fst (is_image linux_host (VStr "target.png") (world mid)) = Ret valid /\
      snd (process_image_to_image linux_host (image_job false))
      = status_state linux_host
          (mkState (globals mid)
                   (snd (is_image linux_host (VStr "target.png") (world mid)))
                   (trace mid ++ [IsImage (VStr "target.png")]))
          (if valid then "Processing to image succeeded!"
           else "Processing to image failed!") CORE /\
      (last_line (trace (snd (process_image_to_image linux_host (image_job false))))
       = image_succeeded <-> valid = true))
  /\
  (exists mid valid,
      fst (is_video linux_host (VStr "target.mp4") (world mid)) = Ret valid /\
      snd (process_image_to_video linux_host (video_job true true))
      = status_state linux_host
          (mkState (globals mid)
                   (snd (is_video linux_host (VStr "target.mp4") (world mid)))
                   (trace mid ++ [IsVideo (VStr "target.mp4")]))
          (if valid then "Processing to video succeeded!"
           else "Processing to video failed!") CORE /\
      (last_line (trace (snd (process_image_to_video linux_host (video_job true true))))
       = video_succeeded <-> valid = true)).
Proof.
  split.
  - apply (proj1 (terminal_status_validates_target linux_host (image_job false)
                    (snd (process_image_to_image linux_host (image_job false))))).
    + vm_compute. reflexivity.
    + reflexivity.
  - apply (proj2 (terminal_status_validates_target linux_host (video_job true true)
                    (snd (process_image_to_video linux_host (video_job true true))))).
    + vm_compute. reflexivity.
    + reflexivity.
Defined.

Example unwritable_output_run :
  printed (trace (snd (process_image_to_image readonly_host (image_job false))))
  = ["Error copying file: [Errno 13] Permission denied";
     "[DLC.FACE-SWAPPER] Processing...";
     "[DLC.CORE] Processing to image succeeded!"].
Proof. vm_compute. reflexivity. Qed.

(** Success is not tied to the output: when the target is a valid image
    and the output cannot be written, the image path announces success
    although the output path is not a valid image. *)
Lemma success_without_valid_output :
  ~ image_status_validates "output_path" readonly_host (image_job false).
Proof.
  unfold image_status_validates. intros [H _].
  assert (Hs : last_line
                 (new_events (image_job false)
                    (snd (process_image_to_image readonly_host (image_job false))))
               = image_succeeded) by (vm_compute; reflexivity).
  specialize (H Hs). vm_compute in H. discriminate H.
Qed.

(** C1: the status the two paths report does not come from the output.
    On the image path, with a target that is a valid image and an output
    that cannot be written, the copy fails, nothing valid is at the output
    path, and the last line printed announces success; on the video path,
    with a target that is a valid video and an audio step that leaves no
    valid video at the output path, the last line printed announces
    success as well.  In both runs the path validated is the target
    path. *)
Theorem status_reported_without_valid_output :
  let image := snd (process_image_to_image readonly_host (image_job false)) in
  let video := snd (process_image_to_video linux_host (video_job true true)) in
  (fst (process_image_to_image readonly_host (image_job false)) = Ret tt /\
   last_line (new_events (image_job false) image) = image_succeeded /\
   fst (is_image readonly_host (getattr (globals image) "output_path") (world image))
   = Ret false /\
   collaborator_calls (new_events (image_job false) image)
   = [Copy2 (VStr "target.png") (VStr "out.png");
      GetFrameProcessorsModules (VStrs ["face_swapper"]);
      ProcessImage "DLC.FACE-SWAPPER" (VStr "face.png") (VStr "out.png") (VStr "out.png");
      IsImage (VStr "target.png")])
  /\
  (fst (process_image_to_video linux_host (video_job true true)) = Ret tt /\
   last_line (new_events (video_job true true) video) = video_succeeded /\
   fst (is_video linux_host (getattr (globals video) "output_path") (world video))
   = Ret false /\
   collaborator_calls (new_events (video_job true true) video)
   = [CreateTemp (VStr "target.mp4"); ExtractFrames (VStr "target.mp4");
      GetTempFramePaths (VStr "target.mp4");
      GetFrameProcessorsModules (VStrs ["face_swapper"]);
      ProcessVideo "DLC.FACE-SWAPPER" (VStr "face.png")
                   ["0001.png"; "0002.png"; "0003.png"];
      DetectFps (VStr "target.mp4"); CreateVideo (VStr "target.mp4") "25.0";
      RestoreAudio (VStr "target.mp4") (VStr "out.mp4");
      CleanTemp (VStr "target.mp4"); IsVideo (VStr "target.mp4")]).
Proof.
  repeat split; vm_compute; reflexivity.
Qed.

(** * Further properties of the orchestrator *)

(** ** Canonical forms and resolution *)

Lemma lower_ascii_idempotent c :
  Str.lower_ascii (Str.lower_ascii c) = Str.lower_ascii c.
Proof. destruct c as [[] [] [] [] [] [] [] []]; reflexivity. Qed.

Lemma lower_ascii_not_E c : Ascii.eqb (Str.lower_ascii c) "E" = false.
Proof. destruct c as [[] [] [] [] [] [] [] []]; reflexivity. Qed.

Lemma lower_idempotent s : Str.lower (Str.lower s) = Str.lower s.
Proof.
  induction s as [|c s IH]; [reflexivity|].
  simpl. now rewrite lower_ascii_idempotent, IH.
Qed.

Lemma lower_without_E s : without "E" (Str.lower s) = true.
Proof.
  induction s as [|c s IH]; [reflexivity|].
  simpl. now rewrite lower_ascii_not_E, IH.
Qed.

(** Nothing is removed from a name without a capital E. *)
Lemma remove_without_E s :
  without "E" s = true -> Str.remove "ExecutionProvider" s = s.
Proof.
  unfold Str.remove. induction s as [|c s IH]; [reflexivity|].
  intros H. simpl in H. apply andb_prop in H. destruct H as [Hc Hrest].
  cbn [Str.remove_from String.prefix].
  destruct (ascii_dec "E" c) as [<- | _]; [discriminate Hc|].
  now rewrite (IH Hrest).
Qed.

Lemma encode1_idempotent name : encode1 (encode1 name) = encode1 name.
Proof.
  unfold encode1.
  rewrite (remove_without_E _ (lower_without_E _)). apply lower_idempotent.
Qed.

(** X1: a canonical form is its own canonical form: encoding a list of
    provider names twice gives what encoding it once gives. *)
Theorem encode_execution_providers_idempotent :
  forall execution_providers : list string,
    encode_execution_providers (encode_execution_providers execution_providers)
    = encode_execution_providers execution_providers.
Proof.
  intros l. unfold encode_execution_providers. rewrite map_map.
  apply map_ext. intros name. apply encode1_idempotent.
Qed.

Lemma mem_In x l : Str.mem x l = true <-> In x l.
Proof.
  unfold Str.mem. rewrite existsb_exists. split.
  - intros [y [Hin Heq]]. apply String.eqb_eq in Heq. now subst.
  - intros H. exists x. split; [exact H | apply String.eqb_refl].
Qed.

Lemma decode_of_selected available requested :
  selected_providers available requested <> [] ->
  decode_execution_providers available requested
  = Some (selected_providers available requested).
Proof.
  intros H. unfold decode_execution_providers.
  rewrite select_providers_selected.
  destruct (selected_providers available requested); [congruence | reflexivity].
Qed.



Lemma first_with_form_complete available provider :
  NoDup (encode_execution_providers available) ->
  In provider available ->
  first_with_form available (encode1 provider) = Some provider.
Proof.
  unfold first_with_form, encode_execution_providers.
  induction available as [|q rest IH]; intros Hnd Hin; [destruct Hin|].
  simpl in Hnd. apply NoDup_cons_iff in Hnd. destruct Hnd as [Hq Hnd].
  simpl. destruct Hin as [-> | Hin].
  - now rewrite String.eqb_refl.
  - destruct (String.eqb_spec (encode1 q) (encode1 provider)) as [Heq | _].
    + exfalso. apply Hq. rewrite Heq. now apply in_map.
    + now apply IH.
Qed.

Lemma selected_of_encoded available part :
  NoDup (encode_execution_providers available) ->
  incl part available ->
  selected_providers available (encode_execution_providers part) = part.
Proof.
  intros Hnd. induction part as [|p part IH]; intros Hincl; [reflexivity|].
  unfold selected_providers, encode_execution_providers in *. simpl.
  rewrite (first_with_form_complete available p Hnd (Hincl p (or_introl eq_refl))).
  simpl. f_equal. apply IH. intros x Hx. apply Hincl. now right.
Qed.

(** X3: round trip.  On a host whose providers have distinct canonical
    forms, resolving the canonical forms of the host providers
    ([suggest_execution_providers], the choices of the command line)
    gives the host providers back, in the order of the host. *)
Theorem decode_encode_round_trip :
  forall available : list string,
    NoDup (encode_execution_providers available) ->
    available <> [] ->
    decode_execution_providers available (suggest_execution_providers available)
    = Some available.
Proof.
  intros available Hnd Hne. unfold suggest_execution_providers.
  pose proof (selected_of_encoded available available Hnd (incl_refl _)) as Hsel.
  rewrite decode_of_selected; rewrite Hsel; [reflexivity | exact Hne].
Qed.

Lemma decode_encode_round_trip_witness :
  decode_execution_providers
    ["TensorrtExecutionProvider"; "CUDAExecutionProvider"; "CPUExecutionProvider"]
    (suggest_execution_providers
       ["TensorrtExecutionProvider"; "CUDAExecutionProvider"; "CPUExecutionProvider"])
  = Some ["TensorrtExecutionProvider"; "CUDAExecutionProvider"; "CPUExecutionProvider"].
Proof.
  apply decode_encode_round_trip.
  - vm_compute. repeat constructor; simpl; intuition discriminate.
  - discriminate.
Defined.

(** ** Checks before the run *)

Lemma status_events_avoid {Fps} (bad : Event Fps -> bool) evs :
  (forall ev, is_status ev = true -> bad ev = false) ->
  collaborator_calls evs = [] ->
  existsb bad evs = false.
Proof.
  intros Hbad. induction evs as [|ev evs IH]; [reflexivity|].
  unfold collaborator_calls in *. simpl.
  destruct (is_status ev) eqn:E; simpl; [|discriminate].
  intros H. now rewrite (Hbad ev E), (IH H).
Qed.

Ltac status_only :=
  apply status_events_avoid;
  [ let ev := fresh "ev" in
    intros ev; destruct ev; simpl; intros; (reflexivity || discriminate)
  | assumption ].

Lemma decode_members available requested resolved :
  decode_execution_providers available requested = Some resolved ->
  Forall (fun provider => In provider available \/ provider = "CPUExecutionProvider")
         resolved.
Proof.
  unfold decode_execution_providers. rewrite select_providers_selected.
  pose proof (selected_providers_sound available requested) as Hs.
  destruct (selected_providers available requested) as [|p l] eqn:E;
    intros H; simpl in H; inversion H; subst resolved.
  - constructor; [now right | constructor].
  - eapply Forall_impl; [|exact Hs]. intros q [Hq _]. now left.
Qed.

Lemma resolved_without_cuda available requested resolved :
  decode_execution_providers available requested = Some resolved ->
  ~ In "cuda" available ->
  Str.mem "cuda" resolved = false.
Proof.
  intros Hd Hn. apply decode_members in Hd.
  destruct (Str.mem "cuda" resolved) eqn:E; [|reflexivity].
  apply mem_In in E. rewrite Forall_forall in Hd.
  destruct (Hd _ E) as [Hin | Heq]; [contradiction | discriminate].
Qed.

(** X4: [release_resources] and [pre_check] look for the literal name
    [cuda] in [modules.globals.execution_providers].  With a list that
    [decode_execution_providers] has resolved, on a host none of whose
    providers is literally named [cuda], the name is never there:
    [release_resources] does nothing at all, and [pre_check] never asks
    torch whether CUDA is available. *)
Theorem resolved_providers_skip_cuda :
  forall {W Fps} (host : Host W Fps) (st : State W Fps)
         (available requested resolved : list string),
    decode_execution_providers available requested = Some resolved ->
    ~ In "cuda" available ->
    getattr (globals st) "execution_providers" = VStrs resolved ->
    release_resources host st = (Ret tt, st) /\
    existsb is_cuda_call (new_events st (snd (pre_check host st))) = false.
Proof.
  intros W Fps host st available requested resolved Hd Hn Hg.
  pose proof (resolved_without_cuda _ _ _ Hd Hn) as Hmem.
  split.
  - unfold release_resources. rewrite bind_read, Hg. simpl. now rewrite Hmem.
  - unfold pre_check.
    destruct (version_lt_3_9 (python_version host)).
    + unfold bind. rewrite update_status_returns. simpl.
      destruct (status_state_trace host
                  "Python version is not supported - please upgrade to 3.9 or higher."
                  CORE st) as [sevs [Ht [Hc _]]].
      rewrite (new_events_app st _ sevs Ht).
      status_only.
    + unfold bind at 1. rewrite call_run.
      destruct (which_ffmpeg host (world st)) as [[[|] | e | n] w]; simpl.
      * rewrite bind_read. simpl. rewrite Hg. simpl. rewrite Hmem. simpl.
        settle_events. reflexivity.
      * unfold bind. rewrite update_status_returns. simpl.
        match goal with
        | |- context [status_state host ?s ?m CORE] =>
            destruct (status_state_trace host m CORE s) as [sevs [Ht [Hc _]]];
            rewrite (new_events_app st (status_state host s m CORE)
                       ([WhichFfmpeg] ++ sevs))
        end.
        -- simpl. status_only.
        -- rewrite Ht. simpl. now rewrite <- app_assoc.
      * settle_events. reflexivity.
      * settle_events. reflexivity.
Qed.

Lemma resolved_providers_skip_cuda_witness :
  release_resources linux_host (video_job true true)
  = (Ret tt, video_job true true) /\
  existsb is_cuda_call
          (new_events (video_job true true)
                      (snd (pre_check linux_host (video_job true true)))) = false.
Proof.
  apply (resolved_providers_skip_cuda linux_host (video_job true true)
           ["CUDAExecutionProvider"; "CPUExecutionProvider"] ["cpu"]
           ["CPUExecutionProvider"]).
  - reflexivity.
  - simpl. intuition discriminate.
  - reflexivity.
Defined.

(** X5: the verdict of [pre_check].  It returns [True] only when the
    version of Python is at least 3.9 and ffmpeg is found, and then it has
    printed nothing; when it returns [False] it has printed exactly one
    line, which gives the reason. *)
Theorem pre_check_verdict :
  forall {W Fps} (host : Host W Fps) (st : State W Fps) (verdict : bool),
    fst (pre_check host st) = Ret verdict ->
    let evs := new_events st (snd (pre_check host st)) in
    if verdict
    then printed evs = [] /\
         version_lt_3_9 (python_version host) = false /\
         fst (which_ffmpeg host (world st)) = Ret true
    else exists reason, printed evs = ["[DLC.CORE] " ++ reason].
Proof.
  intros W Fps host st verdict H evs. subst evs.
  unfold pre_check in *.
  destruct (version_lt_3_9 (python_version host)).
  - unfold bind in *. rewrite update_status_returns in H |- *. simpl in *.
    injection H as <-.
    match goal with
    | |- context [status_state host ?s ?m CORE] =>
        destruct (status_state_trace host m CORE s) as [sevs [Ht [_ Hp]]];
        exists m; rewrite (new_events_app st _ sevs Ht)
    end.
    exact Hp.
  - unfold bind, read, or_raise, ret, raise in *. rewrite call_run in H |- *.
    destruct (which_ffmpeg host (world st)) as [[[|] | e | n] w];
      cbn [fst snd negb globals world trace] in *; try discriminate.
    + destruct (py_in "cuda" (getattr (globals st) "execution_providers"))
        as [[|]|]; cbn [fst snd negb globals world trace] in *; try discriminate.
      * rewrite call_run in H |- *.
        cbn [fst snd negb globals world trace] in *.
        destruct (cuda_is_available host w) as [[[|] | e | n] w'];
          cbn [fst snd negb globals world trace] in *; try discriminate.
        -- injection H as <-. settle_events. now repeat split.
        -- rewrite update_status_returns in H |- *.
           cbn [fst snd] in *. injection H as <-.
           match goal with
           | |- context [status_state host ?s ?m CORE] =>
               destruct (status_state_trace host m CORE s) as [sevs [Ht [_ Hp]]];
               exists m;
               rewrite (new_events_app st (status_state host s m CORE)
                          ([WhichFfmpeg; CudaIsAvailable] ++ sevs))
           end.
           ++ rewrite printed_app. exact Hp.
           ++ rewrite Ht. simpl. now rewrite <- !app_assoc.
      * injection H as <-. settle_events. now repeat split.
    + rewrite update_status_returns in H |- *.
      cbn [fst snd] in *. injection H as <-.
      match goal with
      | |- context [status_state host ?s ?m CORE] =>
          destruct (status_state_trace host m CORE s) as [sevs [Ht [_ Hp]]];
          exists m;
          rewrite (new_events_app st (status_state host s m CORE)
                     ([WhichFfmpeg] ++ sevs))
      end.
      * rewrite printed_app. exact Hp.
      * rewrite Ht. simpl. now rewrite <- app_assoc.
Qed.

Lemma pre_check_verdict_witness :
  printed (new_events (video_job true true)
                      (snd (pre_check linux_host (video_job true true)))) = [] /\
  version_lt_3_9 (python_version linux_host) = false /\
  fst (which_ffmpeg linux_host (world (video_job true true))) = Ret true.
Proof.
  apply (pre_check_verdict linux_host (video_job true true) true). reflexivity.
Defined.

(** ** The values the parser stores *)

Lemma getattr_setattr ns d v name :
  getattr (setattr ns d v) name
  = if String.eqb d name then v else getattr ns name.
Proof. reflexivity. Qed.

Lemma invoke_typed int_of name Q a strings ns ns' :
  (Argparse.dest a = name -> stores int_of Q a) ->
  Q (getattr ns name) ->
  Argparse.invoke int_of a strings ns = Argparse.Next ns' ->
  Q (getattr ns' name).
Proof.
  intros Hst Hns. unfold Argparse.invoke, stores in *.
  destruct (Argparse.act a) as [ty ch | ch | | |]; try discriminate.
  - destruct strings as [|tok [|tok' rest]]; try discriminate.
    destruct (Argparse.convert int_of ty ch tok) as [v|] eqn:C; [|discriminate].
    intros H. injection H as <-. rewrite getattr_setattr.
    destruct (String.eqb_spec (Argparse.dest a) name) as [Hd | _];
      [exact (Hst Hd tok v C) | exact Hns].
  - destruct strings as [|tok rest]; [discriminate|].
    destruct (forallb _ (tok :: rest)) eqn:C; [|discriminate].
    intros H. injection H as <-. rewrite getattr_setattr.
    destruct (String.eqb_spec (Argparse.dest a) name) as [Hd | _];
      [|exact Hns].
    apply (Hst Hd); [discriminate | exact C].
  - destruct strings; [|discriminate].
    intros H. injection H as <-. rewrite getattr_setattr.
    destruct (String.eqb_spec (Argparse.dest a) name) as [Hd | _];
      [exact (Hst Hd) | exact Hns].
Qed.

(** When every argument that stores under [name] stores values that
    satisfy [Q], and the default does, the value under [name] in the
    namespace the parser returns satisfies [Q]. *)
Lemma apply_uses_typed int_of name Q p :
  (forall a, In a p -> Argparse.dest a = name -> stores int_of Q a) ->
  forall uses ns args,
    Q (getattr ns name) ->
    Argparse.apply_uses int_of p uses ns = Argparse.Parsed args ->
    Q (getattr args name).
Proof.
  intros Hp. induction uses as [|[i strings] rest IH]; intros ns args Hns H;
    simpl in H.
  - injection H as <-. exact Hns.
  - destruct (nth_error p i) as [a|] eqn:N; [|discriminate].
    apply nth_error_In in N.
    destruct (Argparse.invoke int_of a strings ns) as [ns'|r] eqn:V.
    + apply (IH ns' args); [|exact H].
      exact (invoke_typed int_of name Q a strings ns ns' (Hp a N) Hns V).
    + subst r. now apply invoke_stop in V.
Qed.

Lemma convert_int_range int_of n tok v :
  Argparse.convert int_of Argparse.TInt (Argparse.Range n) tok = Some v ->
  exists z, v = VInt z /\ 0 <= z < n.
Proof.
  unfold Argparse.convert. destruct (int_of tok) as [z|]; simpl;
    [|discriminate].
  destruct (0 <=? z) eqn:L; destruct (z <? n) eqn:U; simpl; try discriminate.
  intros H. injection H as <-. exists z. split; [reflexivity|].
  apply Z.leb_le in L. apply Z.ltb_lt in U. lia.
Qed.

Lemma convert_int int_of tok v :
  Argparse.convert int_of Argparse.TInt Argparse.AnyValue tok = Some v ->
  exists z, v = VInt z.
Proof.
  unfold Argparse.convert. destruct (int_of tok) as [z|]; simpl;
    [|discriminate].
  intros H. injection H as <-. now exists z.
Qed.

Lemma convert_choice int_of l tok v :
  Argparse.convert int_of Argparse.TStr (Argparse.OneOf l) tok = Some v ->
  v = VStr tok /\ In tok l.
Proof.
  unfold Argparse.convert. simpl. destruct (Str.mem tok l) eqn:E; [|discriminate].
  intros H. injection H as <-. split; [reflexivity | now apply mem_In].
Qed.

Lemma choices_members l toks :
  forallb (fun tok => Argparse.check_choice (Argparse.OneOf l) (VStr tok)) toks = true ->
  Forall (fun tok => In tok l) toks.
Proof.
  rewrite forallb_forall. intros H. apply Forall_forall. intros tok Hin.
  specialize (H tok Hin). simpl in H. now apply mem_In.
Qed.

(** The arguments of [program] one after the other. *)
Ltac each_argument Hin Hd :=
  simpl in Hin;
  repeat (destruct Hin as [<- | Hin]; [try discriminate Hd |]);
  try contradiction.

Section ParsedValues.

Variable matcher : list Argparse.argument -> list string -> Argparse.matching.
Variable int_of : string -> option Z.
Variables (max_memory_default : Z) (providers : list string) (threads_default : Z).
Variables (argv : list string) (args : attrs).

Hypothesis Hparse :
  Argparse.parse matcher int_of
                 (program max_memory_default providers threads_default) argv
  = Argparse.Parsed args.

Lemma parsed_typed name Q :
  (forall a, In a (program max_memory_default providers threads_default) ->
             Argparse.dest a = name -> stores int_of Q a) ->
  Q (getattr (Argparse.defaults
                (program max_memory_default providers threads_default)) name) ->
  Q (getattr args name).
Proof.
  intros Hp Hd. unfold Argparse.parse in Hparse.
  destruct (matcher _ argv) as [uses|]; [|discriminate].
  exact (apply_uses_typed int_of name Q _ Hp uses _ args Hd Hparse).
Qed.

Lemma parsed_video_quality :
  exists q, getattr args "video_quality" = VInt q /\ 0 <= q < 52.
Proof.
  apply (parsed_typed "video_quality"
           (fun v => exists q, v = VInt q /\ 0 <= q < 52)).
  - intros a Hin Hd. each_argument Hin Hd.
    unfold stores. simpl. intros tok v. apply convert_int_range.
  - exists 18. simpl. split; [reflexivity | lia].
Qed.

Lemma parsed_video_encoder :
  In (getattr args "video_encoder")
     [VStr "libx264"; VStr "libx265"; VStr "libvpx-vp9"].
Proof.
  apply (parsed_typed "video_encoder"
           (fun v => In v [VStr "libx264"; VStr "libx265"; VStr "libvpx-vp9"])).
  - intros a Hin Hd. each_argument Hin Hd.
    unfold stores. simpl. intros tok v H. apply convert_choice in H.
    destruct H as [-> Hin']. simpl in Hin'. simpl.
    intuition (subst; auto).
  - simpl. now left.
Qed.

Lemma parsed_max_memory :
  exists z, getattr args "max_memory" = VInt z.
Proof.
  apply (parsed_typed "max_memory" (fun v => exists z, v = VInt z)).
  - intros a Hin Hd. each_argument Hin Hd.
    unfold stores. simpl. intros tok v. apply convert_int.
  - now exists max_memory_default.
Qed.

Lemma parsed_frame_processor :
  exists l, getattr args "frame_processor" = VStrs l /\ l <> [] /\
            Forall (fun name => In name ["face_swapper"; "face_enhancer"]) l.
Proof.
  apply (parsed_typed "frame_processor"
           (fun v => exists l, v = VStrs l /\ l <> [] /\
                               Forall (fun name => In name ["face_swapper"; "face_enhancer"]) l)).
  - intros a Hin Hd. each_argument Hin Hd.
    unfold stores. cbn [Argparse.act]. intros l Hne Hall. exists l.
    split; [reflexivity|]. split; [exact Hne|]. exact (choices_members _ _ Hall).
  - exists ["face_swapper"]. simpl. split; [reflexivity|].
    split; [discriminate|]. repeat constructor.
Qed.

Lemma parsed_execution_provider :
  exists l, getattr args "execution_provider" = VStrs l /\ l <> [].
Proof.
  apply (parsed_typed "execution_provider"
           (fun v => exists l, v = VStrs l /\ l <> [])).
  - intros a Hin Hd. each_argument Hin Hd.
    unfold stores. simpl. intros l Hne _. now exists l.
  - exists ["cpu"]. simpl. split; [reflexivity | discriminate].
Qed.

End ParsedValues.

(** ** The configuration [parse_args] leaves *)

(** One step of a sequence that has returned. *)
Ltac exec H :=
  let a := fresh "a" in
  let s := fresh "s" in
  let E := fresh "E" in
  apply bind_returns in H; destruct H as [a [s [E H]]];
  first
    [ rewrite call_run in E; injection E as ? ?; subst s
    | progress cbv [assign read ret log] in E; injection E as ? ?; subst
    | idtac ].

Section Configuration.

Context {W Fps : Type} (host : Host W Fps).

Implicit Types st : State W Fps.

Lemma decode_nonempty available requested resolved :
  decode_execution_providers available requested = Some resolved ->
  resolved <> [].
Proof.
  unfold decode_execution_providers.
  destruct (select_providers _ _ requested) as [[|p l]|]; intros H;
    inversion H; discriminate.
Qed.

Lemma decode_call_returns requested st v st' :
  decode_execution_providers_call host requested st = (Ret v, st') ->
  exists selected,
    v = VStrs selected /\ selected <> [] /\
    globals st' = globals st.
Proof.
  unfold decode_execution_providers_call. intros H.
  exec H.
  apply bind_returns in H. destruct H as [selected [s [E H]]].
  match type of E with
  | context [decode_execution_providers ?x requested] =>
      destruct (decode_execution_providers x requested) as [l|] eqn:D;
        [|discriminate]
  end.
  cbv [or_raise ret] in E, H. injection E as <- <-. injection H as <- <-.
  exists l. split; [reflexivity|]. split; [|reflexivity].
  exact (decode_nonempty _ _ _ D).
Qed.

Lemma decode_call_keeps name requested :
  keeps name (decode_execution_providers_call host requested).
Proof. unfold decode_execution_providers_call. repeat keeps_step. Qed.

(** The assignments of [parse_args], up to [handle_deprecated_args]. *)
Lemma store_args_run args st st' :
  store_args host args st = (Ret tt, st') ->
  exists output selected enhancer before,
    globals before = stored args output selected enhancer (globals st) /\
    selected <> [] /\
    py_in "face_enhancer" (getattr args "frame_processor") = Some enhancer /\
    handle_deprecated_args host args before = (Ret tt, st').
Proof.
  unfold store_args. intros H.
  do 15 exec H.
  exec H. destruct (iter_strs (getattr args "execution_provider")) as [req|];
    [|discriminate]. cbv [or_raise ret] in E. injection E as -> <-.
  exec H. apply decode_call_returns in E. destruct E as [selected [-> [Hne Hg]]].
  do 2 exec H.
  exec H. destruct (py_in "face_enhancer" (getattr args "frame_processor"))
    as [enhancer|] eqn:P; [|discriminate].
  cbv [or_raise ret] in E. injection E as -> <-.
  do 2 exec H.
  match goal with
  | Hout : fst (normalize_output_path host _ _ _ _) = Ret ?output,
    Hin : py_in _ _ = Some ?enh |- _ =>
      match type of H with
      | handle_deprecated_args host args ?b = _ =>
          exists output, selected, enh, b
      end
  end.
  split; [|split; [exact Hne | split; [reflexivity | exact H]]].
  unfold stored, setattr. simpl. rewrite Hg. reflexivity.
Qed.

(** [parse_args] returns only when the parser has returned a
    namespace, which it then stores. *)
Lemma parse_args_run argv st st' :
  parse_args host argv st = (Ret tt, st') ->
  exists max_memory_default providers threads_default args before,
    Argparse.parse (match_command_line host) (py_int host)
                   (program max_memory_default providers threads_default) argv
    = Argparse.Parsed args /\
    globals before = globals st /\
    store_args host args before = (Ret tt, st').
Proof.
  unfold parse_args. intros H.
  do 3 exec H.
  exec H.
  destruct (suggest_execution_threads (getattr (globals st) "execution_providers"))
    as [threads|]; [|discriminate].
  cbv [or_raise ret] in E. injection E as <- <-.
  destruct (Argparse.parse _ _ _ argv) as [args | | |] eqn:P.
  - eexists _, _, _, args, _. split; [exact P|]. split; [|exact H]. reflexivity.
  - exec H. discriminate.
  - exec H. discriminate.
  - exec H. discriminate.
Qed.

Lemma returned_keeps {A} name (c : M W Fps A) st a st' :
  keeps name c -> c st = (Ret a, st') ->
  getattr (globals st') name = getattr (globals st) name.
Proof. intros Hk H. specialize (Hk st). now rewrite H in Hk. Qed.

Lemma maintains_keeps {A} name Q (c : M W Fps A) :
  keeps name c -> maintains name Q c.
Proof. intros Hk st HQ. now rewrite (Hk st). Qed.

Lemma maintains_bind {A B} name Q (c : M W Fps A) (k : A -> M W Fps B) :
  maintains name Q c -> (forall a, maintains name Q (k a)) ->
  maintains name Q (bind c k).
Proof.
  intros Hc Hk st HQ. unfold bind. specialize (Hc st HQ).
  destruct (c st) as [[a | e | n] st1]; simpl in *; try exact Hc.
  exact (Hk a st1 Hc).
Qed.

Lemma maintains_if {A} name Q (b : bool) (c d : M W Fps A) :
  maintains name Q c -> maintains name Q d ->
  maintains name Q (if b then c else d).
Proof. now destruct b. Qed.

Lemma maintains_decode_assign requested :
  maintains "execution_providers" nonempty_list
    (providers <- decode_execution_providers_call host requested ;;
     assign "execution_providers" providers).
Proof.
  intros st HQ. unfold bind.
  pose proof (decode_call_keeps "execution_providers" requested st) as Hk.
  destruct (decode_execution_providers_call host requested st)
    as [[v | e | n] st1] eqn:E; simpl in *; try (now rewrite Hk).
  apply decode_call_returns in E. destruct E as [selected [-> [Hne _]]].
  now exists selected.
Qed.

Lemma handle_deprecated_args_providers args :
  maintains "execution_providers" nonempty_list (handle_deprecated_args host args).
Proof.
  unfold handle_deprecated_args.
  repeat first
    [ apply maintains_decode_assign
    | apply maintains_if
    | apply maintains_bind; [| intros ?]
    | apply maintains_keeps; unfold print; solve [repeat keeps_step] ].
Qed.

End Configuration.

(** What [handle_deprecated_args] leaves alone. *)
Ltac deprecated_keeps :=
  unfold handle_deprecated_args, decode_execution_providers_call, print;
  repeat keeps_step.

(** X6: when [parse_args] returns, the video settings and the memory
    ceiling of the configuration are well formed, whatever the command
    line: [video_quality] is an integer from 0 to 51, [video_encoder] is
    one of the three encoders, and [max_memory] is an integer. *)
Theorem parse_args_settings :
  forall {W Fps} (host : Host W Fps) (argv : list string) (st st' : State W Fps),
    parse_args host argv st = (Ret tt, st') ->
    (exists q, getattr (globals st') "video_quality" = VInt q /\ 0 <= q <= 51) /\
    In (getattr (globals st') "video_encoder")
       [VStr "libx264"; VStr "libx265"; VStr "libvpx-vp9"] /\
    (exists gb, getattr (globals st') "max_memory" = VInt gb).
Proof.
  intros W Fps host argv st st' H.
  apply parse_args_run in H.
  destruct H as [mm [provs [thr [args [before [P [_ H]]]]]]].
  apply store_args_run in H.
  destruct H as [output [selected [enhancer [stored_state [Hg [_ [_ H]]]]]]].
  assert (Hq : getattr (globals st') "video_quality" = getattr args "video_quality").
  { rewrite (returned_keeps "video_quality" (handle_deprecated_args host args) _ _ _
               ltac:(deprecated_keeps) H).
    now rewrite Hg. }
  assert (He : getattr (globals st') "video_encoder" = getattr args "video_encoder").
  { rewrite (returned_keeps "video_encoder" (handle_deprecated_args host args) _ _ _
               ltac:(deprecated_keeps) H).
    now rewrite Hg. }
  assert (Hm : getattr (globals st') "max_memory" = getattr args "max_memory").
  { rewrite (returned_keeps "max_memory" (handle_deprecated_args host args) _ _ _
               ltac:(deprecated_keeps) H).
    now rewrite Hg. }
  rewrite Hq, He, Hm. split; [|split].
  - destruct (parsed_video_quality _ _ _ _ _ _ _ P) as [q [Hv Hb]].
    exists q. split; [exact Hv | lia].
  - exact (parsed_video_encoder _ _ _ _ _ _ _ P).
  - exact (parsed_max_memory _ _ _ _ _ _ _ P).
Qed.

Lemma parse_args_settings_witness :
  (exists q, getattr (globals (snd (parse_args linux_host
                                      ["-t"; "target.mp4"; "--video-quality"; "51"]
                                      no_job)))
                     "video_quality" = VInt q /\ 0 <= q <= 51) /\
  In (getattr (globals (snd (parse_args linux_host
                               ["-t"; "target.mp4"; "--video-quality"; "51"]
                               no_job)))
              "video_encoder")
     [VStr "libx264"; VStr "libx265"; VStr "libvpx-vp9"] /\
  (exists gb, getattr (globals (snd (parse_args linux_host
                                       ["-t"; "target.mp4"; "--video-quality"; "51"]
                                       no_job)))
                      "max_memory" = VInt gb).
Proof.
  apply (parse_args_settings linux_host
           ["-t"; "target.mp4"; "--video-quality"; "51"] no_job).
  vm_compute. reflexivity.
Defined.

(** X7: when [parse_args] returns, [execution_providers] is a non-empty
    list, whatever the command line and whatever the deprecated
    [--gpu-vendor] asks for: each assignment stores a list that
    [decode_execution_providers] has resolved. *)
Theorem parse_args_providers_nonempty :
  forall {W Fps} (host : Host W Fps) (argv : list string) (st st' : State W Fps),
    parse_args host argv st = (Ret tt, st') ->
    nonempty_list (getattr (globals st') "execution_providers").
Proof.
  intros W Fps host argv st st' H.
  apply parse_args_run in H.
  destruct H as [mm [provs [thr [args [before [P [_ H]]]]]]].
  apply store_args_run in H.
  destruct H as [output [selected [enhancer [stored_state [Hg [Hne [_ H]]]]]]].
  pose proof (handle_deprecated_args_providers host args stored_state) as Hm.
  rewrite H in Hm. apply Hm. rewrite Hg. now exists selected.
Qed.

Lemma parse_args_providers_nonempty_witness :
  nonempty_list
    (getattr (globals (snd (parse_args linux_host
                              ["-t"; "target.mp4"; "--gpu-vendor"; "amd"] no_job)))
             "execution_providers").
Proof.
  apply (parse_args_providers_nonempty linux_host
           ["-t"; "target.mp4"; "--gpu-vendor"; "amd"] no_job).
  vm_compute. reflexivity.
Defined.

(** X8: when [parse_args] returns, [frame_processors] is a non-empty list
    of the two known processors, and the switch of the face enhancer in
    [fp_ui] says whether [face_enhancer] is in the list. *)
Theorem parse_args_frame_processors :
  forall {W Fps} (host : Host W Fps) (argv : list string) (st st' : State W Fps),
    parse_args host argv st = (Ret tt, st') ->
    exists names,
      getattr (globals st') "frame_processors" = VStrs names /\
      names <> [] /\
      Forall (fun name => In name ["face_swapper"; "face_enhancer"]) names /\
      getattr (globals st') "fp_ui.face_enhancer"
      = VBool (Str.mem "face_enhancer" names).
Proof.
  intros W Fps host argv st st' H.
  apply parse_args_run in H.
  destruct H as [mm [provs [thr [args [before [P [_ H]]]]]]].
  apply store_args_run in H.
  destruct H as [output [selected [enhancer [stored_state [Hg [_ [He H]]]]]]].
  destruct (parsed_frame_processor _ _ _ _ _ _ _ P) as [names [Hn [Hne Hall]]].
  exists names.
  rewrite (returned_keeps "frame_processors" (handle_deprecated_args host args) _ _ _
               ltac:(deprecated_keeps) H).
  rewrite (returned_keeps "fp_ui.face_enhancer" (handle_deprecated_args host args) _ _ _
               ltac:(deprecated_keeps) H).
  rewrite Hg. simpl. rewrite Hn in He |- *. simpl in He. injection He as <-.
  now repeat split.
Qed.

Lemma parse_args_frame_processors_witness :
  exists names,
    getattr (globals (snd (parse_args linux_host
                             ["--frame-processor"; "face_swapper"; "face_enhancer"]
                             no_job)))
            "frame_processors" = VStrs names /\
    names <> [] /\
    Forall (fun name => In name ["face_swapper"; "face_enhancer"]) names /\
    getattr (globals (snd (parse_args linux_host
                             ["--frame-processor"; "face_swapper"; "face_enhancer"]
                             no_job)))
            "fp_ui.face_enhancer"
    = VBool (Str.mem "face_enhancer" names).
Proof.
  apply (parse_args_frame_processors linux_host
           ["--frame-processor"; "face_swapper"; "face_enhancer"] no_job).
  vm_compute. reflexivity.
Defined.

(** ** Deprecated arguments *)

Section Deprecated.

Context {W Fps : Type} (host : Host W Fps).

Implicit Types st : State W Fps.

Lemma ensures_then_keeps {A B} name v (c : M W Fps A) (k : A -> M W Fps B) :
  ensures name v c -> (forall a, keeps name (k a)) -> ensures name v (bind c k).
Proof.
  intros Hc Hk st b st' H. apply bind_returns in H.
  destruct H as [a [s1 [E H]]].
  rewrite (returned_keeps name (k a) s1 b st' (Hk a) H).
  exact (Hc st a s1 E).
Qed.

Lemma ensures_assign_last name v : ensures name v (assign name v : M W Fps unit).
Proof.
  intros st a st' H. cbv [assign] in H. injection H as _ <-. simpl.
  now rewrite String.eqb_refl.
Qed.

(** The source path after [handle_deprecated_args]: the one of [-f] when
    it is given. *)
Lemma handle_deprecated_args_source args st st' :
  handle_deprecated_args host args st = (Ret tt, st') ->
  getattr (globals st') "source_path"
  = if truth (getattr args "source_path_deprecated")
    then getattr args "source_path_deprecated"
    else getattr (globals st) "source_path".
Proof.
  intros H. destruct (truth (getattr args "source_path_deprecated")) eqn:D.
  - cut (ensures "source_path" (getattr args "source_path_deprecated")
              (handle_deprecated_args host args)).
    { intros E. exact (E st tt st' H). }
    clear H.
    unfold handle_deprecated_args. rewrite D.
    apply ensures_then_keeps.
    + apply ensures_bind. intros _. apply ensures_assign. repeat keeps_step.
    + intros _. unfold decode_execution_providers_call, print. repeat keeps_step.
  - refine (returned_keeps "source_path" _ _ _ _ _ H).
    unfold handle_deprecated_args, decode_execution_providers_call, print.
    rewrite D. repeat keeps_step.
Qed.

(** The number of threads after [handle_deprecated_args]: the one of
    [--gpu-threads], else the one of [--cpu-cores]. *)
Lemma handle_deprecated_args_threads args st st' :
  handle_deprecated_args host args st = (Ret tt, st') ->
  getattr (globals st') "execution_threads"
  = if truth (getattr args "gpu_threads_deprecated")
    then getattr args "gpu_threads_deprecated"
    else if truth (getattr args "cpu_cores_deprecated")
         then getattr args "cpu_cores_deprecated"
         else getattr (globals st) "execution_threads".
Proof.
  intros H. destruct (truth (getattr args "gpu_threads_deprecated")) eqn:G.
  - cut (ensures "execution_threads" (getattr args "gpu_threads_deprecated")
              (handle_deprecated_args host args)).
    { intros E. exact (E st tt st' H). }
    clear H.
    unfold handle_deprecated_args. rewrite G.
    do 5 (apply ensures_bind; intros _).
    apply ensures_bind. intros _. apply ensures_assign_last.
  - destruct (truth (getattr args "cpu_cores_deprecated")) eqn:C.
    + cut (ensures "execution_threads" (getattr args "cpu_cores_deprecated")
                (handle_deprecated_args host args)).
      { intros E. exact (E st tt st' H). }
      clear H.
      unfold handle_deprecated_args. rewrite G, C.
      apply ensures_bind. intros _.
      apply ensures_then_keeps.
      * apply ensures_bind. intros _. apply ensures_assign_last.
      * intros _. unfold decode_execution_providers_call, print.
        repeat keeps_step.
    + refine (returned_keeps "execution_threads" _ _ _ _ _ H).
      unfold handle_deprecated_args, decode_execution_providers_call, print.
      rewrite G, C. repeat keeps_step.
Qed.

End Deprecated.

(** X9: the deprecated arguments.  When [parse_args] returns, with [args]
    the namespace of the parser: the source path is the one of [-f] when
    [-f] is given, else the one of [-s]; the number of threads is the one
    of [--gpu-threads] when given, else the one of [--cpu-cores] when
    given, else the one of [--execution-threads]; and [headless] is
    computed from [-s], [-t] and [-o] alone, so a source given by [-f]
    does not make the run headless. *)
Theorem parse_args_deprecated :
  forall {W Fps} (host : Host W Fps) (argv : list string) (st st' : State W Fps),
    parse_args host argv st = (Ret tt, st') ->
    exists max_memory_default providers threads_default args,
      Argparse.parse (match_command_line host) (py_int host)
                     (program max_memory_default providers threads_default) argv
      = Argparse.Parsed args /\
      getattr (globals st') "source_path"
      = (if truth (getattr args "source_path_deprecated")
         then getattr args "source_path_deprecated"
         else getattr args "source_path") /\
      getattr (globals st') "execution_threads"
      = (if truth (getattr args "gpu_threads_deprecated")
         then getattr args "gpu_threads_deprecated"
         else if truth (getattr args "cpu_cores_deprecated")
              then getattr args "cpu_cores_deprecated"
              else getattr args "execution_threads") /\
      getattr (globals st') "headless"
      = py_or (py_or (getattr args "source_path") (getattr args "target_path"))
              (getattr args "output_path").
Proof.
  intros W Fps host argv st st' H.
  apply parse_args_run in H.
  destruct H as [mm [provs [thr [args [before [P [_ H]]]]]]].
  apply store_args_run in H.
  destruct H as [output [selected [enhancer [stored_state [Hg [_ [_ H]]]]]]].
  exists mm, provs, thr, args. split; [exact P|].
  rewrite (handle_deprecated_args_source host args _ _ H).
  rewrite (handle_deprecated_args_threads host args _ _ H).
  rewrite (returned_keeps "headless" (handle_deprecated_args host args) _ _ _
             ltac:(deprecated_keeps) H).
  rewrite Hg. now repeat split.
Qed.

Lemma parse_args_deprecated_witness :
  exists max_memory_default providers threads_default args,
    Argparse.parse (match_command_line linux_host) (py_int linux_host)
                   (program max_memory_default providers threads_default)
                   ["-f"; "face.png"; "--cpu-cores"; "2"; "--gpu-threads"; "4"]
    = Argparse.Parsed args /\
    getattr (globals (snd (parse_args linux_host
               ["-f"; "face.png"; "--cpu-cores"; "2"; "--gpu-threads"; "4"] no_job)))
            "source_path"
    = (if truth (getattr args "source_path_deprecated")
       then getattr args "source_path_deprecated"
       else getattr args "source_path") /\
    getattr (globals (snd (parse_args linux_host
               ["-f"; "face.png"; "--cpu-cores"; "2"; "--gpu-threads"; "4"] no_job)))
            "execution_threads"
    = (if truth (getattr args "gpu_threads_deprecated")
       then getattr args "gpu_threads_deprecated"
       else if truth (getattr args "cpu_cores_deprecated")
            then getattr args "cpu_cores_deprecated"
            else getattr args "execution_threads") /\
    getattr (globals (snd (parse_args linux_host
               ["-f"; "face.png"; "--cpu-cores"; "2"; "--gpu-threads"; "4"] no_job)))
            "headless"
    = py_or (py_or (getattr args "source_path") (getattr args "target_path"))
            (getattr args "output_path").
Proof.
  apply (parse_args_deprecated linux_host
           ["-f"; "face.png"; "--cpu-cores"; "2"; "--gpu-threads"; "4"] no_job).
  vm_compute. reflexivity.
Defined.

Example deprecated_face_run :
  let st' := snd (parse_args linux_host
                    ["-f"; "face.png"; "--cpu-cores"; "2"; "--gpu-threads"; "4"]
                    no_job) in
  (getattr (globals st') "source_path", getattr (globals st') "execution_threads",
   truth (getattr (globals st') "headless"))
  = (VStr "face.png", VInt 4, false).
Proof. vm_compute. reflexivity. Qed.

(** ** The memory ceiling, platform by platform *)




(** X11: the ceiling is not applied at all, and nothing is called or
    printed, when [max_memory] is zero or [None], and, whatever the
    ceiling, on Darwin, where the number of bytes is computed and then
    left unused. *)
Theorem limit_memory_usage_does_nothing :
  forall {W Fps} (host : Host W Fps) (st : State W Fps),
    truth (getattr (globals st) "max_memory") = false \/
    ((exists gb, getattr (globals st) "max_memory" = VInt gb) /\
     String.eqb (Str.lower (platform_system host)) "darwin" = true) ->
    limit_memory_usage host st = (Ret tt, st).
Proof.
  intros W Fps host st [Hf | [[gb Hmm] Hd]];
    unfold limit_memory_usage; rewrite bind_read.
  - now rewrite Hf.
  - rewrite Hmm. cbn [truth as_int or_raise].
    destruct (gb =? 0); cbn [negb]; [reflexivity|].
    unfold bind. cbn [ret]. now rewrite Hd.
Qed.

Lemma limit_memory_usage_does_nothing_witness :
  limit_memory_usage (toy_host "Darwin" (Ret (-1, -1)) (Ret tt) (Ret tt) (Ret tt) [])
                     (video_job true true)
  = (Ret tt, video_job true true).
Proof.
  apply limit_memory_usage_does_nothing. right. split.
  - now exists 16.
  - reflexivity.
Defined.

(** X12: on Windows, with a ceiling of [gb] GB that fits in a [size_t],
    the only thing done is one call of [SetProcessWorkingSetSize] on the
    current process (handle -1) with the ceiling in bytes as the minimum
    and as the maximum of the working set; what the call returns is not
    looked at. *)
Theorem limit_memory_usage_windows :
  forall {W Fps} (host : Host W Fps) (st : State W Fps) (gb : Z),
    String.eqb (Str.lower (platform_system host)) "windows" = true ->
    getattr (globals st) "max_memory" = VInt gb ->
    0 < gb * GB < 2 ^ 64 ->
    limit_memory_usage host st
    = (Ret tt,
       mkState (globals st)
               (snd (set_process_working_set_size host (-1) (gb * GB) (gb * GB)
                                                  (world st)))
               (trace st ++ [SetProcessWorkingSetSize (-1) (gb * GB) (gb * GB)])).
Proof.
  intros W Fps host st gb Hw Hmm Hb.
  assert (Hd : String.eqb (Str.lower (platform_system host)) "darwin" = false).
  { apply String.eqb_eq in Hw. now rewrite Hw. }
  assert (Hz : (gb =? 0) = false).
  { apply Z.eqb_neq. intros ->. simpl in Hb. lia. }
  unfold limit_memory_usage. rewrite bind_read, Hmm.
  cbn [truth as_int or_raise]. rewrite Hz. cbn [negb].
  unfold bind at 1. cbn [ret]. rewrite Hd, Hw.
  unfold c_size_t. rewrite (Z.mod_small (gb * GB) (2 ^ 64)) by lia.
  unfold bind. rewrite call_run. unfold foreign.
  destruct (set_process_working_set_size host (-1) (gb * GB) (gb * GB) (world st));
    reflexivity.
Qed.

Lemma limit_memory_usage_windows_witness :
  limit_memory_usage (toy_host "Windows" (Ret (-1, -1)) (Ret tt) (Ret tt) (Ret tt) [])
                     (video_job true true)
  = (Ret tt,
     mkState (globals (video_job true true)) tt
             [SetProcessWorkingSetSize (-1) (16 * GB) (16 * GB)]).
Proof.
  apply (limit_memory_usage_windows
           (toy_host "Windows" (Ret (-1, -1)) (Ret tt) (Ret tt) (Ret tt) [])
           (video_job true true) 16).
  - reflexivity.
  - reflexivity.
  - split; reflexivity.
Defined.
